(** * Netscape cookie files: the parser and the two writers of
      [netscape_cookies/netscape_cookies.py]

    The development embeds the functions of the module as Rocq functions
    and proves the properties stated for them.

    Modelling conventions.
    - A Python [str] is a list of Unicode code points ([N]).  The
      character classes used by [str.strip], [str.isdigit], [int] and
      [str.upper] are the tables of the Unicode character database
      (version 14.0, the one of CPython 3.11), given by ranges below.
    - A Python [int] is a [Z]; the interpreter's configurable limit on the
      number of digits of a decimal conversion is not modelled.
    - A [dict] is a [gmap]; the values of a raw cookie mapping are a sum
      of the types such mappings hold ([None], [bool], [int], [str]);
      floating point values are left out.
    - An exception is a [Raise] result; a loop over a list is a monadic
      fold that stops at the first exception.
    - Writing a file replaces its contents in a map from paths to texts;
      reading a path that holds no file raises [FileNotFoundError], and
      no other error of input or output is modelled.  The platform's
      line separator is the newline and the text encoding of files is
      lossless.
    - The browser session is an interface with the one method used,
      [get_cookies]. *)

From Stdlib Require Import NArith ZArith Ascii String DecimalN DecimalPos Lia.
From stdpp Require Import base option list numbers countable gmap.

Local Open Scope N_scope.

(** ** Unicode character classes *)

Module Unicode.

Definition space_ranges : list (N * N) :=
  [ (0x9, 0xD); (0x1C, 0x20); (0x85, 0x85); (0xA0, 0xA0); (0x1680, 0x1680);
    (0x2000, 0x200A); (0x2028, 0x2029); (0x202F, 0x202F); (0x205F, 0x205F); (0x3000, 0x3000) ]%N.

Definition decimal_ranges : list (N * N) :=
  [ (0x30, 0x39); (0x660, 0x669); (0x6F0, 0x6F9); (0x7C0, 0x7C9); (0x966, 0x96F);
    (0x9E6, 0x9EF); (0xA66, 0xA6F); (0xAE6, 0xAEF); (0xB66, 0xB6F); (0xBE6, 0xBEF);
    (0xC66, 0xC6F); (0xCE6, 0xCEF); (0xD66, 0xD6F); (0xDE6, 0xDEF); (0xE50, 0xE59);
    (0xED0, 0xED9); (0xF20, 0xF29); (0x1040, 0x1049); (0x1090, 0x1099); (0x17E0, 0x17E9);
    (0x1810, 0x1819); (0x1946, 0x194F); (0x19D0, 0x19D9); (0x1A80, 0x1A89); (0x1A90, 0x1A99);
    (0x1B50, 0x1B59); (0x1BB0, 0x1BB9); (0x1C40, 0x1C49); (0x1C50, 0x1C59); (0xA620, 0xA629);
    (0xA8D0, 0xA8D9); (0xA900, 0xA909); (0xA9D0, 0xA9D9); (0xA9F0, 0xA9F9); (0xAA50, 0xAA59);
    (0xABF0, 0xABF9); (0xFF10, 0xFF19); (0x104A0, 0x104A9); (0x10D30, 0x10D39); (0x11066, 0x1106F);
    (0x110F0, 0x110F9); (0x11136, 0x1113F); (0x111D0, 0x111D9); (0x112F0, 0x112F9); (0x11450, 0x11459);
    (0x114D0, 0x114D9); (0x11650, 0x11659); (0x116C0, 0x116C9); (0x11730, 0x11739); (0x118E0, 0x118E9);
    (0x11950, 0x11959); (0x11C50, 0x11C59); (0x11D50, 0x11D59); (0x11DA0, 0x11DA9); (0x16A60, 0x16A69);
    (0x16AC0, 0x16AC9); (0x16B50, 0x16B59); (0x1D7CE, 0x1D7FF); (0x1E140, 0x1E149); (0x1E2F0, 0x1E2F9);
    (0x1E950, 0x1E959); (0x1FBF0, 0x1FBF9) ]%N.

Definition other_digit_ranges : list (N * N) :=
  [ (0xB2, 0xB3); (0xB9, 0xB9); (0x1369, 0x1371); (0x19DA, 0x19DA); (0x2070, 0x2070);
    (0x2074, 0x2079); (0x2080, 0x2089); (0x2460, 0x2468); (0x2474, 0x247C); (0x2488, 0x2490);
    (0x24EA, 0x24EA); (0x24F5, 0x24FD); (0x24FF, 0x24FF); (0x2776, 0x277E); (0x2780, 0x2788);
    (0x278A, 0x2792); (0x10A40, 0x10A43); (0x10E60, 0x10E68); (0x11052, 0x1105A); (0x1F100, 0x1F10A) ]%N.

Definition upper_ranges : list (N * N * N * N) :=
  [ (0x61, 0x7A, 1, 0x41); (0xB5, 0xB5, 1, 0x39C); (0xE0, 0xF6, 1, 0xC0);
    (0xF8, 0xFE, 1, 0xD8); (0xFF, 0xFF, 1, 0x178); (0x101, 0x12F, 2, 0x100);
    (0x131, 0x131, 1, 0x49); (0x133, 0x137, 2, 0x132); (0x13A, 0x148, 2, 0x139);
    (0x14B, 0x177, 2, 0x14A); (0x17A, 0x17E, 2, 0x179); (0x17F, 0x17F, 1, 0x53);
    (0x180, 0x180, 1, 0x243); (0x183, 0x185, 2, 0x182); (0x188, 0x188, 1, 0x187);
    (0x18C, 0x18C, 1, 0x18B); (0x192, 0x192, 1, 0x191); (0x195, 0x195, 1, 0x1F6);
    (0x199, 0x199, 1, 0x198); (0x19A, 0x19A, 1, 0x23D); (0x19E, 0x19E, 1, 0x220);
    (0x1A1, 0x1A5, 2, 0x1A0); (0x1A8, 0x1A8, 1, 0x1A7); (0x1AD, 0x1AD, 1, 0x1AC);
    (0x1B0, 0x1B0, 1, 0x1AF); (0x1B4, 0x1B6, 2, 0x1B3); (0x1B9, 0x1B9, 1, 0x1B8);
    (0x1BD, 0x1BD, 1, 0x1BC); (0x1BF, 0x1BF, 1, 0x1F7); (0x1C5, 0x1C5, 1, 0x1C4);
    (0x1C6, 0x1C6, 1, 0x1C4); (0x1C8, 0x1C8, 1, 0x1C7); (0x1C9, 0x1C9, 1, 0x1C7);
    (0x1CB, 0x1CB, 1, 0x1CA); (0x1CC, 0x1CC, 1, 0x1CA); (0x1CE, 0x1DC, 2, 0x1CD);
    (0x1DD, 0x1DD, 1, 0x18E); (0x1DF, 0x1EF, 2, 0x1DE); (0x1F2, 0x1F2, 1, 0x1F1);
    (0x1F3, 0x1F3, 1, 0x1F1); (0x1F5, 0x1F5, 1, 0x1F4); (0x1F9, 0x21F, 2, 0x1F8);
    (0x223, 0x233, 2, 0x222); (0x23C, 0x23C, 1, 0x23B); (0x23F, 0x240, 1, 0x2C7E);
    (0x242, 0x242, 1, 0x241); (0x247, 0x24F, 2, 0x246); (0x250, 0x250, 1, 0x2C6F);
    (0x251, 0x251, 1, 0x2C6D); (0x252, 0x252, 1, 0x2C70); (0x253, 0x253, 1, 0x181);
    (0x254, 0x254, 1, 0x186); (0x256, 0x257, 1, 0x189); (0x259, 0x259, 1, 0x18F);
    (0x25B, 0x25B, 1, 0x190); (0x25C, 0x25C, 1, 0xA7AB); (0x260, 0x260, 1, 0x193);
    (0x261, 0x261, 1, 0xA7AC); (0x263, 0x263, 1, 0x194); (0x265, 0x265, 1, 0xA78D);
    (0x266, 0x266, 1, 0xA7AA); (0x268, 0x268, 1, 0x197); (0x269, 0x269, 1, 0x196);
    (0x26A, 0x26A, 1, 0xA7AE); (0x26B, 0x26B, 1, 0x2C62); (0x26C, 0x26C, 1, 0xA7AD);
    (0x26F, 0x26F, 1, 0x19C); (0x271, 0x271, 1, 0x2C6E); (0x272, 0x272, 1, 0x19D);
    (0x275, 0x275, 1, 0x19F); (0x27D, 0x27D, 1, 0x2C64); (0x280, 0x280, 1, 0x1A6);
    (0x282, 0x282, 1, 0xA7C5); (0x283, 0x283, 1, 0x1A9); (0x287, 0x287, 1, 0xA7B1);
    (0x288, 0x288, 1, 0x1AE); (0x289, 0x289, 1, 0x244); (0x28A, 0x28B, 1, 0x1B1);
    (0x28C, 0x28C, 1, 0x245); (0x292, 0x292, 1, 0x1B7); (0x29D, 0x29D, 1, 0xA7B2);
    (0x29E, 0x29E, 1, 0xA7B0); (0x345, 0x345, 1, 0x399); (0x371, 0x373, 2, 0x370);
    (0x377, 0x377, 1, 0x376); (0x37B, 0x37D, 1, 0x3FD); (0x3AC, 0x3AC, 1, 0x386);
    (0x3AD, 0x3AF, 1, 0x388); (0x3B1, 0x3C1, 1, 0x391); (0x3C2, 0x3C2, 1, 0x3A3);
    (0x3C3, 0x3CB, 1, 0x3A3); (0x3CC, 0x3CC, 1, 0x38C); (0x3CD, 0x3CE, 1, 0x38E);
    (0x3D0, 0x3D0, 1, 0x392); (0x3D1, 0x3D1, 1, 0x398); (0x3D5, 0x3D5, 1, 0x3A6);
    (0x3D6, 0x3D6, 1, 0x3A0); (0x3D7, 0x3D7, 1, 0x3CF); (0x3D9, 0x3EF, 2, 0x3D8);
    (0x3F0, 0x3F0, 1, 0x39A); (0x3F1, 0x3F1, 1, 0x3A1); (0x3F2, 0x3F2, 1, 0x3F9);
    (0x3F3, 0x3F3, 1, 0x37F); (0x3F5, 0x3F5, 1, 0x395); (0x3F8, 0x3F8, 1, 0x3F7);
    (0x3FB, 0x3FB, 1, 0x3FA); (0x430, 0x44F, 1, 0x410); (0x450, 0x45F, 1, 0x400);
    (0x461, 0x481, 2, 0x460); (0x48B, 0x4BF, 2, 0x48A); (0x4C2, 0x4CE, 2, 0x4C1);
    (0x4CF, 0x4CF, 1, 0x4C0); (0x4D1, 0x52F, 2, 0x4D0); (0x561, 0x586, 1, 0x531);
    (0x10D0, 0x10FA, 1, 0x1C90); (0x10FD, 0x10FF, 1, 0x1CBD); (0x13F8, 0x13FD, 1, 0x13F0);
    (0x1C80, 0x1C80, 1, 0x412); (0x1C81, 0x1C81, 1, 0x414); (0x1C82, 0x1C82, 1, 0x41E);
    (0x1C83, 0x1C84, 1, 0x421); (0x1C85, 0x1C85, 1, 0x422); (0x1C86, 0x1C86, 1, 0x42A);
    (0x1C87, 0x1C87, 1, 0x462); (0x1C88, 0x1C88, 1, 0xA64A); (0x1D79, 0x1D79, 1, 0xA77D);
    (0x1D7D, 0x1D7D, 1, 0x2C63); (0x1D8E, 0x1D8E, 1, 0xA7C6); (0x1E01, 0x1E95, 2, 0x1E00);
    (0x1E9B, 0x1E9B, 1, 0x1E60); (0x1EA1, 0x1EFF, 2, 0x1EA0); (0x1F00, 0x1F07, 1, 0x1F08);
    (0x1F10, 0x1F15, 1, 0x1F18); (0x1F20, 0x1F27, 1, 0x1F28); (0x1F30, 0x1F37, 1, 0x1F38);
    (0x1F40, 0x1F45, 1, 0x1F48); (0x1F51, 0x1F57, 2, 0x1F59); (0x1F60, 0x1F67, 1, 0x1F68);
    (0x1F70, 0x1F71, 1, 0x1FBA); (0x1F72, 0x1F75, 1, 0x1FC8); (0x1F76, 0x1F77, 1, 0x1FDA);
    (0x1F78, 0x1F79, 1, 0x1FF8); (0x1F7A, 0x1F7B, 1, 0x1FEA); (0x1F7C, 0x1F7D, 1, 0x1FFA);
    (0x1FB0, 0x1FB1, 1, 0x1FB8); (0x1FBE, 0x1FBE, 1, 0x399); (0x1FD0, 0x1FD1, 1, 0x1FD8);
    (0x1FE0, 0x1FE1, 1, 0x1FE8); (0x1FE5, 0x1FE5, 1, 0x1FEC); (0x214E, 0x214E, 1, 0x2132);
    (0x2170, 0x217F, 1, 0x2160); (0x2184, 0x2184, 1, 0x2183); (0x24D0, 0x24E9, 1, 0x24B6);
    (0x2C30, 0x2C5F, 1, 0x2C00); (0x2C61, 0x2C61, 1, 0x2C60); (0x2C65, 0x2C65, 1, 0x23A);
    (0x2C66, 0x2C66, 1, 0x23E); (0x2C68, 0x2C6C, 2, 0x2C67); (0x2C73, 0x2C73, 1, 0x2C72);
    (0x2C76, 0x2C76, 1, 0x2C75); (0x2C81, 0x2CE3, 2, 0x2C80); (0x2CEC, 0x2CEE, 2, 0x2CEB);
    (0x2CF3, 0x2CF3, 1, 0x2CF2); (0x2D00, 0x2D25, 1, 0x10A0); (0x2D27, 0x2D27, 1, 0x10C7);
    (0x2D2D, 0x2D2D, 1, 0x10CD); (0xA641, 0xA66D, 2, 0xA640); (0xA681, 0xA69B, 2, 0xA680);
    (0xA723, 0xA72F, 2, 0xA722); (0xA733, 0xA76F, 2, 0xA732); (0xA77A, 0xA77C, 2, 0xA779);
    (0xA77F, 0xA787, 2, 0xA77E); (0xA78C, 0xA78C, 1, 0xA78B); (0xA791, 0xA793, 2, 0xA790);
    (0xA794, 0xA794, 1, 0xA7C4); (0xA797, 0xA7A9, 2, 0xA796); (0xA7B5, 0xA7C3, 2, 0xA7B4);
    (0xA7C8, 0xA7CA, 2, 0xA7C7); (0xA7D1, 0xA7D1, 1, 0xA7D0); (0xA7D7, 0xA7D9, 2, 0xA7D6);
    (0xA7F6, 0xA7F6, 1, 0xA7F5); (0xAB53, 0xAB53, 1, 0xA7B3); (0xAB70, 0xABBF, 1, 0x13A0);
    (0xFF41, 0xFF5A, 1, 0xFF21); (0x10428, 0x1044F, 1, 0x10400); (0x104D8, 0x104FB, 1, 0x104B0);
    (0x10597, 0x105A1, 1, 0x10570); (0x105A3, 0x105B1, 1, 0x1057C); (0x105B3, 0x105B9, 1, 0x1058C);
    (0x105BB, 0x105BC, 1, 0x10594); (0x10CC0, 0x10CF2, 1, 0x10C80); (0x118C0, 0x118DF, 1, 0x118A0);
    (0x16E60, 0x16E7F, 1, 0x16E40); (0x1E922, 0x1E943, 1, 0x1E900) ]%N.

Definition upper_special : list (N * list N) :=
  [ (0xDF, [0x53; 0x53]); (0x149, [0x2BC; 0x4E]); (0x1F0, [0x4A; 0x30C]);
    (0x390, [0x399; 0x308; 0x301]); (0x3B0, [0x3A5; 0x308; 0x301]); (0x587, [0x535; 0x552]);
    (0x1E96, [0x48; 0x331]); (0x1E97, [0x54; 0x308]); (0x1E98, [0x57; 0x30A]);
    (0x1E99, [0x59; 0x30A]); (0x1E9A, [0x41; 0x2BE]); (0x1F50, [0x3A5; 0x313]);
    (0x1F52, [0x3A5; 0x313; 0x300]); (0x1F54, [0x3A5; 0x313; 0x301]); (0x1F56, [0x3A5; 0x313; 0x342]);
    (0x1F80, [0x1F08; 0x399]); (0x1F81, [0x1F09; 0x399]); (0x1F82, [0x1F0A; 0x399]);
    (0x1F83, [0x1F0B; 0x399]); (0x1F84, [0x1F0C; 0x399]); (0x1F85, [0x1F0D; 0x399]);
    (0x1F86, [0x1F0E; 0x399]); (0x1F87, [0x1F0F; 0x399]); (0x1F88, [0x1F08; 0x399]);
    (0x1F89, [0x1F09; 0x399]); (0x1F8A, [0x1F0A; 0x399]); (0x1F8B, [0x1F0B; 0x399]);
    (0x1F8C, [0x1F0C; 0x399]); (0x1F8D, [0x1F0D; 0x399]); (0x1F8E, [0x1F0E; 0x399]);
    (0x1F8F, [0x1F0F; 0x399]); (0x1F90, [0x1F28; 0x399]); (0x1F91, [0x1F29; 0x399]);
    (0x1F92, [0x1F2A; 0x399]); (0x1F93, [0x1F2B; 0x399]); (0x1F94, [0x1F2C; 0x399]);
    (0x1F95, [0x1F2D; 0x399]); (0x1F96, [0x1F2E; 0x399]); (0x1F97, [0x1F2F; 0x399]);
    (0x1F98, [0x1F28; 0x399]); (0x1F99, [0x1F29; 0x399]); (0x1F9A, [0x1F2A; 0x399]);
    (0x1F9B, [0x1F2B; 0x399]); (0x1F9C, [0x1F2C; 0x399]); (0x1F9D, [0x1F2D; 0x399]);
    (0x1F9E, [0x1F2E; 0x399]); (0x1F9F, [0x1F2F; 0x399]); (0x1FA0, [0x1F68; 0x399]);
    (0x1FA1, [0x1F69; 0x399]); (0x1FA2, [0x1F6A; 0x399]); (0x1FA3, [0x1F6B; 0x399]);
    (0x1FA4, [0x1F6C; 0x399]); (0x1FA5, [0x1F6D; 0x399]); (0x1FA6, [0x1F6E; 0x399]);
    (0x1FA7, [0x1F6F; 0x399]); (0x1FA8, [0x1F68; 0x399]); (0x1FA9, [0x1F69; 0x399]);
    (0x1FAA, [0x1F6A; 0x399]); (0x1FAB, [0x1F6B; 0x399]); (0x1FAC, [0x1F6C; 0x399]);
    (0x1FAD, [0x1F6D; 0x399]); (0x1FAE, [0x1F6E; 0x399]); (0x1FAF, [0x1F6F; 0x399]);
    (0x1FB2, [0x1FBA; 0x399]); (0x1FB3, [0x391; 0x399]); (0x1FB4, [0x386; 0x399]);
    (0x1FB6, [0x391; 0x342]); (0x1FB7, [0x391; 0x342; 0x399]); (0x1FBC, [0x391; 0x399]);
    (0x1FC2, [0x1FCA; 0x399]); (0x1FC3, [0x397; 0x399]); (0x1FC4, [0x389; 0x399]);
    (0x1FC6, [0x397; 0x342]); (0x1FC7, [0x397; 0x342; 0x399]); (0x1FCC, [0x397; 0x399]);
    (0x1FD2, [0x399; 0x308; 0x300]); (0x1FD3, [0x399; 0x308; 0x301]); (0x1FD6, [0x399; 0x342]);
    (0x1FD7, [0x399; 0x308; 0x342]); (0x1FE2, [0x3A5; 0x308; 0x300]); (0x1FE3, [0x3A5; 0x308; 0x301]);
    (0x1FE4, [0x3A1; 0x313]); (0x1FE6, [0x3A5; 0x342]); (0x1FE7, [0x3A5; 0x308; 0x342]);
    (0x1FF2, [0x1FFA; 0x399]); (0x1FF3, [0x3A9; 0x399]); (0x1FF4, [0x38F; 0x399]);
    (0x1FF6, [0x3A9; 0x342]); (0x1FF7, [0x3A9; 0x342; 0x399]); (0x1FFC, [0x3A9; 0x399]);
    (0xFB00, [0x46; 0x46]); (0xFB01, [0x46; 0x49]); (0xFB02, [0x46; 0x4C]);
    (0xFB03, [0x46; 0x46; 0x49]); (0xFB04, [0x46; 0x46; 0x4C]); (0xFB05, [0x53; 0x54]);
    (0xFB06, [0x53; 0x54]); (0xFB13, [0x544; 0x546]); (0xFB14, [0x544; 0x535]);
    (0xFB15, [0x544; 0x53B]); (0xFB16, [0x54E; 0x546]); (0xFB17, [0x544; 0x53D]) ]%N.

Definition in_range (c : N) (r : N * N) : bool :=
  (fst r <=? c) && (c <=? snd r).

(** [Py_UNICODE_ISSPACE]: the characters [str.strip()] removes. *)
Definition is_space (c : N) : bool := existsb (in_range c) space_ranges.

(** [Py_UNICODE_TODECIMAL]: the value of a decimal digit (category Nd).
    Every range starts at a digit zero and holds whole runs 0..9. *)
Definition decimal_value (c : N) : option N :=
  match List.find (in_range c) decimal_ranges with
  | Some r => Some ((c - fst r) mod 10)
  | None => None
  end.

Definition is_decimal (c : N) : bool :=
  match decimal_value c with Some _ => true | None => false end.

(** [Py_UNICODE_ISDIGIT]: decimal digits and the digits that are not
    decimal (superscripts, circled digits, ...). *)
Definition is_digit (c : N) : bool :=
  is_decimal c || existsb (in_range c) other_digit_ranges.

Definition in_upper_range (c : N) (e : N * N * N * N) : bool :=
  let '(lo, hi, step, _) := e in
  (lo <=? c) && (c <=? hi) && ((c - lo) mod step =? 0).

(** The full upper-case mapping of one character ([_PyUnicode_ToUpperFull]);
    it may yield several characters. *)
Definition upper_char (c : N) : list N :=
  match List.find (fun e => fst e =? c) upper_special with
  | Some e => snd e
  | None =>
      match List.find (in_upper_range c) upper_ranges with
      | Some (lo, _, _, target) => [target + (c - lo)]
      | None => [c]
      end
  end.

End Unicode.

(** ** Python strings, values and exceptions *)

Module Py.

Abbreviation str := (list N) (only parsing).

(** The code points of an ASCII literal. *)
Fixpoint U (s : string) : str :=
  match s with
  | EmptyString => []
  | String a r => N_of_ascii a :: U r
  end.

#[global] Arguments U : simpl never.

Definition TAB : N := 9.
Definition LF : N := 10.

Inductive exn := ValueError | TypeError | AttributeError.

Inductive result (A : Type) :=
  | Ok (a : A)
  | Raise (e : exn).
Arguments Ok {A} a.
Arguments Raise {A} e.

#[global] Instance result_bind : MBind result := fun A B k r =>
  match r with
  | Ok a => k a
  | Raise e => Raise e
  end.

(** A [for] loop that updates an accumulator and stops at an exception. *)
Fixpoint for_each {A S} (body : S -> A -> result S) (s : S) (l : list A)
  : result S :=
  match l with
  | [] => Ok s
  | a :: l' => s' ← body s a; for_each body s' l'
  end.

(** A comprehension whose element expression may raise. *)
Fixpoint collect {A B} (f : A -> result B) (l : list A) : result (list B) :=
  match l with
  | [] => Ok []
  | a :: l' => b ← f a; bs ← collect f l'; Ok (b :: bs)
  end.

Definition str_eqb (s t : str) : bool := bool_decide (s = t).

(** [s.startswith(prefix)] *)
Fixpoint startswith (prefix s : str) : bool :=
  match prefix, s with
  | [], _ => true
  | _ :: _, [] => false
  | p :: prefix', c :: s' => (p =? c) && startswith prefix' s'
  end.

(** [s.split(sep)] for a separator of one character: a cut at every
    occurrence, empty pieces kept, never an empty list. *)
Fixpoint split (sep : N) (s : str) : list str :=
  match s with
  | [] => [[]]
  | c :: s' =>
      if c =? sep then [] :: split sep s'
      else match split sep s' with
           | piece :: pieces => (c :: piece) :: pieces
           | [] => [[c]]
           end
  end.

Fixpoint dropwhile {A} (f : A -> bool) (l : list A) : list A :=
  match l with
  | [] => []
  | a :: l' => if f a then dropwhile f l' else l
  end.

Definition lstrip (s : str) : str := dropwhile Unicode.is_space s.
Definition rstrip (s : str) : str := rev (dropwhile Unicode.is_space (rev s)).

(** [s.strip()] *)
Definition strip (s : str) : str := rstrip (lstrip s).

(** [s.replace(old, new)] for a non-empty [old]: the occurrences are
    taken from left to right and do not overlap; [skip] counts the
    characters of a matched occurrence still to be passed over. *)
Fixpoint replace_from (old new : str) (skip : nat) (s : str) : str :=
  match s with
  | [] => []
  | c :: s' =>
      match skip with
      | S k => replace_from old new k s'
      | O =>
          if startswith old s
          then new ++ replace_from old new (length old - 1) s'
          else c :: replace_from old new 0 s'
      end
  end.

Definition replace (old new s : str) : str := replace_from old new 0 s.

(** [s.upper()] *)
Definition upper (s : str) : str := concat (map Unicode.upper_char s).

(** [s.isdigit()]: at least one character, all of them digits. *)
Definition isdigit (s : str) : bool :=
  match s with
  | [] => false
  | _ => forallb Unicode.is_digit s
  end.

(** *** [int(s)] on a string, base ten *)

(** The blanks [int] accepts around the number: the ASCII ones and the
    Unicode spaces outside ASCII (the separators U+001C to U+001F are
    not among them). *)
Definition is_int_space (c : N) : bool :=
  ((9 <=? c) && (c <=? 13)) || (c =? 32) || ((128 <=? c) && Unicode.is_space c).

(** The digits after the first, a single underscore allowed between two
    digits; returns the value and the unread rest. *)
Fixpoint scan_digits (acc : N) (s : str) : N * str :=
  match s with
  | [] => (acc, [])
  | c :: s' =>
      match Unicode.decimal_value c with
      | Some d => scan_digits (10 * acc + d) s'
      | None =>
          if c =? 95 then
            match s' with
            | c' :: s'' =>
                match Unicode.decimal_value c' with
                | Some d => scan_digits (10 * acc + d) s''
                | None => (acc, s)
                end
            | [] => (acc, s)
            end
          else (acc, s)
      end
  end.

Definition int_of_str (s : str) : result Z :=
  let s1 := dropwhile is_int_space s in
  let '(negative, s2) :=
    match s1 with
    | 45 :: r => (true, r)
    | 43 :: r => (false, r)
    | _ => (false, s1)
    end in
  match s2 with
  | c :: _ =>
      if Unicode.is_decimal c then
        let '(v, rest) := scan_digits 0 s2 in
        if forallb is_int_space rest
        then Ok (if negative then (- Z.of_N v)%Z else Z.of_N v)
        else Raise ValueError
      else Raise ValueError
  | [] => Raise ValueError
  end.

(** *** [str(n)] on an integer *)

Fixpoint uint_digits (d : Decimal.uint) : str :=
  match d with
  | Decimal.Nil => []
  | Decimal.D0 d' => 48 :: uint_digits d'
  | Decimal.D1 d' => 49 :: uint_digits d'
  | Decimal.D2 d' => 50 :: uint_digits d'
  | Decimal.D3 d' => 51 :: uint_digits d'
  | Decimal.D4 d' => 52 :: uint_digits d'
  | Decimal.D5 d' => 53 :: uint_digits d'
  | Decimal.D6 d' => 54 :: uint_digits d'
  | Decimal.D7 d' => 55 :: uint_digits d'
  | Decimal.D8 d' => 56 :: uint_digits d'
  | Decimal.D9 d' => 57 :: uint_digits d'
  end.

Definition str_of_int (n : Z) : str :=
  match n with
  | Z0 => [48]
  | Zpos p => uint_digits (Pos.to_uint p)
  | Zneg p => 45 :: uint_digits (Pos.to_uint p)
  end.

(** *** Values of a raw cookie mapping *)

Inductive pyval :=
  | PNone
  | PBool (b : bool)
  | PInt (n : Z)
  | PStr (s : str).

(** Truth value of an object in a condition. *)
Definition truthy (v : pyval) : bool :=
  match v with
  | PNone => false
  | PBool b => b
  | PInt n => negb (n =? 0)%Z
  | PStr s => negb (str_eqb s [])
  end.

(** [str(v)] *)
Definition py_str (v : pyval) : str :=
  match v with
  | PNone => U "None"
  | PBool true => U "True"
  | PBool false => U "False"
  | PInt n => str_of_int n
  | PStr s => s
  end.

(** [int(v)] *)
Definition py_int (v : pyval) : result Z :=
  match v with
  | PNone => Raise TypeError
  | PBool true => Ok 1%Z
  | PBool false => Ok 0%Z
  | PInt n => Ok n
  | PStr s => int_of_str s
  end.

(** [v.startswith(prefix)]: only strings have the method. *)
Definition py_startswith (v : pyval) (prefix : str) : result bool :=
  match v with
  | PStr s => Ok (startswith prefix s)
  | _ => Raise AttributeError
  end.

(** [sep.join(items)]: every item has to be a string. *)
Fixpoint join (sep : str) (items : list pyval) : result str :=
  match items with
  | [] => Ok []
  | [PStr s] => Ok s
  | PStr s :: items' => r ← join sep items'; Ok (s ++ sep ++ r)
  | _ :: _ => Raise TypeError
  end.

End Py.

Import Py.

(** ** The module [netscape_cookies] *)

(** The class [Cookie].  [expiration] is declared [int]; [save_to_file]
    tests it against [None], so the attribute is optional here. *)
Record Cookie := mkCookie {
  domain : str;
  flag : bool;
  path : str;
  secure : bool;
  expiration : option Z;
  name : str;
  value : str
}.

(** *** [to_netscape_string] *)

(** [cookie.get(key, fallback)] *)
Definition get (cookie : gmap str pyval) (key : str) (fallback : pyval) : pyval :=
  default fallback (cookie !! key).

(** [domain.startswith(".") if domain else False] *)
Definition include_sub_domain_of (domain : pyval) : result bool :=
  if truthy domain then py_startswith domain (U ".") else Ok false.

(** [str(int(expiration_date)) if expiration_date else "0"] *)
Definition expiry_of (expiration_date : pyval) : result str :=
  if truthy expiration_date
  then n ← py_int expiration_date; Ok (str_of_int n)
  else Ok (U "0").

(** The body of the loop: the seven items appended for one cookie. *)
Definition cookie_parts (cookie : gmap str pyval) : result (list pyval) :=
  let domain := get cookie (U "domain") (PStr []) in
  let expiration_date := get cookie (U "expiry") PNone in
  let path := get cookie (U "path") (PStr []) in
  let secure := get cookie (U "secure") (PBool false) in
  let name := get cookie (U "name") (PStr []) in
  let value := get cookie (U "value") (PStr []) in
  include_sub_domain ← include_sub_domain_of domain;
  expiry ← expiry_of expiration_date;
  Ok [ domain;
       PStr (upper (py_str (PBool include_sub_domain)));
       path;
       PStr (upper (py_str secure));
       PStr expiry;
       name;
       value ].

Definition to_netscape_string (cookie_data : list (gmap str pyval)) : result str :=
  result ← collect cookie_parts cookie_data;
  rows ← collect (fun cookie_parts => join [TAB] cookie_parts) result;
  join [LF] (map PStr rows).

(** *** [parse_from_string] *)

(** The non-blank lines of the input. *)
Definition input_lines (input_string : str) : list str :=
  List.filter (fun line => negb (str_eqb (strip line) [])) (split LF input_string).

(** Comment lines start with [#], but not with [#HttpOnly_]. *)
Definition is_comment (line : str) : bool :=
  startswith (U "#") line && negb (startswith (U "#HttpOnly_") line).

(** The conversion of the expiration field. *)
Definition parse_expiration (field : str) : result Z :=
  if isdigit field then int_of_str field else Ok 0%Z.

(** The body of the loop over the lines, on the dictionary [cookies]. *)
Definition parse_line (cookies : gmap str Cookie) (line : str)
  : result (gmap str Cookie) :=
  if is_comment line then Ok cookies
  else
    let lineFields := split TAB (strip line) in
    if (7 <=? length lineFields)%nat then
      let domain :=
        if startswith (U "#HttpOnly") (nth 0 lineFields [])
        then replace (U "#HttpOnly_") [] (nth 0 lineFields [])
        else nth 0 lineFields [] in
      let flag := str_eqb (upper (nth 1 lineFields [])) (U "TRUE") in
      let path := nth 2 lineFields [] in
      let secure := str_eqb (upper (nth 3 lineFields [])) (U "TRUE") in
      expiration ← parse_expiration (nth 4 lineFields []);
      let name := nth 5 lineFields [] in
      let value := nth 6 lineFields [] in
      let cookie := mkCookie domain flag path secure (Some expiration) name value in
      Ok (<[name := cookie]> cookies)
    else Ok cookies.

Definition parse_from_string (input_string : str) : result (gmap str Cookie) :=
  for_each parse_line ∅ (input_lines input_string).

(** *** [save_to_file] *)

Definition header : str :=
  U "# Netscape HTTP Cookie File" ++ [LF] ++
  U "# http://curl.haxx.se/rfc/cookie_spec.html" ++ [LF] ++
  U "# This is a generated file!  Do not edit." ++ [LF; LF].

(** The expiration column of the headered writer. *)
Definition expiration_field (cookie : Cookie) : str :=
  match expiration cookie with
  | Some e => if (0 <? e)%Z then str_of_int e else []
  | None => []
  end.

(** The text written for one cookie. *)
Definition cookie_line (cookie : Cookie) : str :=
  let flag := if flag cookie then U "TRUE" else U "FALSE" in
  let secure := if secure cookie then U "TRUE" else U "FALSE" in
  let expiration := expiration_field cookie in
  domain cookie ++ [TAB] ++ flag ++ [TAB] ++ path cookie ++ [TAB] ++ secure ++ [TAB] ++
  expiration ++ [TAB] ++ name cookie ++ [TAB] ++ value cookie ++ [LF].

(** Everything [save_to_file] writes, in order (the file is opened in
    text mode; the line ends are written as they are). *)
Definition file_text (cookies : list Cookie) : str :=
  header ++ concat (map cookie_line cookies).

Definition save_to_file (cookies : list Cookie) (cookieFile : str)
  (files : gmap str str) : gmap str str * str :=
  (<[cookieFile := file_text cookies]> files, cookieFile).

(** *** [Cookie.to_selenium_cookie] *)

Definition to_selenium_cookie (self : Cookie) : gmap str pyval :=
  list_to_map
    [ (U "name", PStr (name self));
      (U "value", PStr (value self));
      (U "path", PStr (path self));
      (U "secure", PBool (secure self));
      (U "domain", PStr (domain self)) ].

(** *** [save_cookies_to_file] *)

(** The text is computed before the file is opened: when the
    serialization raises, no file is touched. *)
Definition save_cookies_to_file (cookie_data : list (gmap str pyval))
  (file_path : str) (files : gmap str str) : gmap str str * result unit :=
  match to_netscape_string cookie_data with
  | Ok netscape_string => (<[file_path := netscape_string]> files, Ok tt)
  | Raise e => (files, Raise e)
  end.

(** *** [parse_from_file] *)

(** What [file.read()] returns for a file opened in text mode for
    reading: the line ends [\r\n] and [\r] of the contents are read as
    [\n]. *)
Fixpoint universal_newlines (s : str) : str :=
  match s with
  | [] => []
  | 13 :: s' =>
      LF :: match s' with
            | 10 :: s'' => universal_newlines s''
            | _ => universal_newlines s'
            end
  | c :: s' => c :: universal_newlines s'
  end.

(** The error of opening a path that holds no file. *)
Inductive os_exn := FileNotFoundError.

Definition parse_from_file (cookieFile : str) (files : gmap str str)
  : os_exn + result (gmap str Cookie) :=
  match files !! cookieFile with
  | Some text => inr (parse_from_string (universal_newlines text))
  | None => inl FileNotFoundError
  end.

(** *** [netscape_from_driver] *)

(** The one method used of the browser session: [driver.get_cookies()]
    returns the raw mappings and may change the session. *)
Class WebDriver (D : Type) := get_cookies : D -> list (gmap str pyval) * D.

(** [if file_path:] on an optional string. *)
Definition path_given (file_path : option str) : option str :=
  match file_path with
  | Some p => if str_eqb p [] then None else Some p
  | None => None
  end.

(** The session is asked for its cookies once for the text returned and
    once more for the file. *)
Definition netscape_from_driver `{WebDriver D} (driver : D)
  (file_path : option str) (files : gmap str str)
  : D * gmap str str * result str :=
  let '(cookies, driver) := get_cookies driver in
  match to_netscape_string cookies with
  | Raise e => (driver, files, Raise e)
  | Ok data =>
      match path_given file_path with
      | Some p =>
          let '(cookies', driver) := get_cookies driver in
          let '(files, saved) := save_cookies_to_file cookies' p files in
          (driver, files, _ ← saved; Ok data)
      | None => (driver, files, Ok data)
      end
  end.

(** ** Auxiliary definitions of the statements *)

(** The dictionary literal with the given items. *)
Definition dict (items : list (str * pyval)) : gmap str pyval :=
  list_to_map items.

(** [sep.join(pieces)] on strings, for a separator of one character. *)
Fixpoint sep_join (sep : N) (pieces : list str) : str :=
  match pieces with
  | [] => []
  | [s] => s
  | s :: pieces' => s ++ sep :: sep_join sep pieces'
  end.

(** A line with the given fields, and a text with the given lines. *)
Definition tabbed (fields : list str) : str := sep_join TAB fields.
Definition unlines (lines : list str) : str := sep_join LF lines.

(** A line is kept by the filter of [input_lines] when it is not blank. *)
Definition nonblank (line : str) : bool := negb (str_eqb (strip line) []).




(** The ASCII digits, of which decimal strings are made. *)
Definition is_ascii_digit (c : N) : bool := (48 <=? c) && (c <=? 57).

(** The value of a digit string read from the left. *)
Fixpoint uint_value (acc : N) (d : Decimal.uint) : N :=
  match d with
  | Decimal.Nil => acc
  | Decimal.D0 d' => uint_value (10 * acc + 0) d'
  | Decimal.D1 d' => uint_value (10 * acc + 1) d'
  | Decimal.D2 d' => uint_value (10 * acc + 2) d'
  | Decimal.D3 d' => uint_value (10 * acc + 3) d'
  | Decimal.D4 d' => uint_value (10 * acc + 4) d'
  | Decimal.D5 d' => uint_value (10 * acc + 5) d'
  | Decimal.D6 d' => uint_value (10 * acc + 6) d'
  | Decimal.D7 d' => uint_value (10 * acc + 7) d'
  | Decimal.D8 d' => uint_value (10 * acc + 8) d'
  | Decimal.D9 d' => uint_value (10 * acc + 9) d'
  end.



(** The condition of the round trip as stated: no tab or newline in a
    field value. *)
Definition plain (s : str) : Prop := (TAB ∉ s) /\ (LF ∉ s).

Definition fields_plain (cookie : Cookie) : Prop :=
  plain (domain cookie) /\ plain (path cookie) /\ plain (name cookie) /\ plain (value cookie).

(** What the round trip needs besides: the line of the record must
    survive [strip] and the comment test, and the expiration must be
    written. *)
Definition starts_visible (s : str) : Prop :=
  exists c rest, s = c :: rest /\ Unicode.is_space c = false /\ c <> 35.

Definition ends_visible (s : str) : Prop :=
  exists init c, s = init ++ [c] /\ Unicode.is_space c = false.


(** The dictionary built by storing the records in order. *)
Definition store_all (cookies : list Cookie) : gmap str Cookie :=
  foldl (fun m cookie => <[name cookie := cookie]> m) ∅ cookies.

(** ** Auxiliary definitions of the further properties *)

(** The letters of [TRUE], and a string that spells it in upper or
    lower case ASCII letters. *)
Definition is_true_letter (c : N) : bool :=
  (c =? 84) || (c =? 82) || (c =? 85) || (c =? 69).

Definition any_case (capital c : N) : Prop := c = capital \/ c = capital + 32.

Definition spells_true (s : str) : Prop :=
  exists t r u e,
    s = [t; r; u; e] /\ any_case 84 t /\ any_case 82 r /\ any_case 85 u /\ any_case 69 e.




(** A record whose line survives [strip] and the comment test, whatever
    its expiration. *)
Definition survives (cookie : Cookie) : Prop :=
  fields_plain cookie /\ starts_visible (domain cookie) /\ ends_visible (value cookie).



(** The raw mappings the header-less serializer accepts: the four text
    entries are strings (or missing) and the expiry, when it counts as
    true, converts to an integer. *)
Definition is_text (v : pyval) : bool :=
  match v with PStr _ => true | _ => false end.

Definition text_of (v : pyval) : str :=
  match v with PStr s => s | _ => [] end.

Definition converts (v : pyval) : bool :=
  if truthy v then match py_int v with Ok _ => true | Raise _ => false end else true.

Definition serializable (cookie : gmap str pyval) : bool :=
  is_text (get cookie (U "domain") (PStr [])) &&
  is_text (get cookie (U "path") (PStr [])) &&
  is_text (get cookie (U "name") (PStr [])) &&
  is_text (get cookie (U "value") (PStr [])) &&
  converts (get cookie (U "expiry") PNone).

(** The number written in the expiry column, and the seven columns of
    the line of a raw mapping. *)
Definition expiry_number (v : pyval) : Z :=
  if truthy v then match py_int v with Ok n => n | Raise _ => 0%Z end else 0%Z.

Definition raw_columns (cookie : gmap str pyval) : list str :=
  [ text_of (get cookie (U "domain") (PStr []));
    upper (py_str (PBool (startswith (U ".") (text_of (get cookie (U "domain") (PStr []))))));
    text_of (get cookie (U "path") (PStr []));
    upper (py_str (get cookie (U "secure") (PBool false)));
    str_of_int (expiry_number (get cookie (U "expiry") PNone));
    text_of (get cookie (U "name") (PStr []));
    text_of (get cookie (U "value") (PStr [])) ].

(** The record the parser reads back from the line of a raw mapping
    whose [secure] entry is a boolean. *)
Definition raw_record (cookie : gmap str pyval) : Cookie :=
  mkCookie
    (text_of (get cookie (U "domain") (PStr [])))
    (startswith (U ".") (text_of (get cookie (U "domain") (PStr []))))
    (text_of (get cookie (U "path") (PStr [])))
    (match get cookie (U "secure") (PBool false) with PBool b => b | _ => false end)
    (Some (Z.max 0 (expiry_number (get cookie (U "expiry") PNone))))
    (text_of (get cookie (U "name") (PStr [])))
    (text_of (get cookie (U "value") (PStr []))).

Definition raw_round_trips (cookie : gmap str pyval) : Prop :=
  serializable cookie = true /\
  (exists b, get cookie (U "secure") (PBool false) = PBool b) /\
  fields_plain (raw_record cookie) /\
  starts_visible (domain (raw_record cookie)) /\
  ends_visible (value (raw_record cookie)).

(** The record read back after a record has been turned into a session
    mapping and serialized: the expiration is lost and the subdomain flag
    is taken from the domain. *)
Definition through_session (cookie : Cookie) : Cookie :=
  mkCookie (domain cookie) (startswith (U ".") (domain cookie)) (path cookie)
    (secure cookie) (Some 0%Z) (name cookie) (value cookie).

(** A session that answers [get_cookies] with the next list of a given
    sequence of answers (and with no cookies when the sequence is
    over). *)
#[global] Instance scripted_session : WebDriver (list (list (gmap str pyval))) :=
  fun answers =>
    match answers with
    | [] => ([], [])
    | cookies :: answers' => (cookies, answers')
    end.

(** * Properties *)

(** ** Sample evaluations *)

Example py_samples :
  split TAB (U "a" ++ [TAB; TAB] ++ U "b") = [U "a"; []; U "b"] /\
  split LF [] = [[]] /\
  strip ([32; 9] ++ U "a b" ++ [0xA0; 10]) = U "a b" /\
  replace (U "ab") (U "-") (U "xababay") = U "x--ay" /\
  upper (U "true") = U "TRUE" /\
  isdigit (U "123" ++ [0xB2]) = true /\
  int_of_str (U " -1_000 ") = Ok (-1000)%Z /\
  int_of_str [0xB2] = Raise ValueError /\
  int_of_str (U "1__0") = Raise ValueError /\
  str_of_int 1700000000 = U "1700000000" /\
  str_of_int (-45) = U "-45" /\
  join [TAB] [PStr (U "a"); PStr []; PStr (U "b")] = Ok (U "a" ++ [TAB; TAB] ++ U "b").
Proof. vm_compute. repeat split. Qed.

Example parse_samples :
  parse_from_string
    (tabbed [U "#HttpOnly_example.com"; U "TRUE"; U "/"; U "FALSE"; U "0"; U "sid"; U "abc123"])
  = Ok {[ U "sid" := mkCookie (U "example.com") true (U "/") false (Some 0%Z) (U "sid") (U "abc123") ]}
  /\ parse_from_string (U "# plain comment") = Ok ∅
  /\ parse_from_string [] = Ok ∅
  /\ parse_from_string ([32; LF; TAB; LF]) = Ok ∅.
Proof. vm_compute. repeat split. Qed.

(** ** The header-less serializer *)

(** C8: the singleton list holding the mapping with domain [.x.com], path
    [/], secure true, name [a], value [1] and expiry 1700000000 is
    serialized to exactly the seven fields [.x.com TRUE / TRUE 1700000000
    a 1] separated by tabs, with no header and no final newline. *)
Theorem C8_to_netscape_string_example :
  to_netscape_string
    [ dict [ (U "domain", PStr (U ".x.com")); (U "path", PStr (U "/"));
             (U "secure", PBool true); (U "name", PStr (U "a"));
             (U "value", PStr (U "1")); (U "expiry", PInt 1700000000) ] ]
  = Ok (U ".x.com" ++ [TAB] ++ U "TRUE" ++ [TAB] ++ U "/" ++ [TAB] ++ U "TRUE" ++ [TAB] ++
        U "1700000000" ++ [TAB] ++ U "a" ++ [TAB] ++ U "1").
Proof. vm_compute. reflexivity. Qed.




Lemma include_sub_domain_of_str s :
  include_sub_domain_of (PStr s) = Ok (startswith (U ".") s).
Proof. destruct s; reflexivity. Qed.




Lemma cookie_parts_ok cookie parts :
  cookie_parts cookie = Ok parts ->
  exists include_sub_domain expiry,
    include_sub_domain_of (get cookie (U "domain") (PStr [])) = Ok include_sub_domain /\
    expiry_of (get cookie (U "expiry") PNone) = Ok expiry /\
    parts = [ get cookie (U "domain") (PStr []);
              PStr (upper (py_str (PBool include_sub_domain)));
              get cookie (U "path") (PStr []);
              PStr (upper (py_str (get cookie (U "secure") (PBool false))));
              PStr expiry;
              get cookie (U "name") (PStr []);
              get cookie (U "value") (PStr []) ].
Proof.
  unfold cookie_parts.
  destruct (include_sub_domain_of _) as [b|]; [|discriminate].
  destruct (expiry_of _) as [e|]; [|discriminate].
  cbn. intros [= <-]. eauto.
Qed.

(** One mapping is serialized to its items joined by tabs. *)
Lemma to_netscape_string_single cookie :
  to_netscape_string [cookie] = parts ← cookie_parts cookie; join [TAB] parts.
Proof.
  unfold to_netscape_string. cbn [collect].
  destruct (cookie_parts cookie) as [parts|]; cbn; [|reflexivity].
  destruct (join [TAB] parts); reflexivity.
Qed.

(** ** The expiration column of the two writers *)




(** ** Splitting, joining and the loop *)

Lemma split_nonempty sep s : split sep s <> [].
Proof. destruct s as [|c s]; cbn; [discriminate|]. destruct (c =? sep); [discriminate|]. destruct (split sep s); discriminate. Qed.

Lemma split_cons_sep sep s : split sep (sep :: s) = [] :: split sep s.
Proof. cbn. rewrite N.eqb_refl. reflexivity. Qed.

Lemma split_cons_other sep c s :
  c <> sep ->
  split sep (c :: s) = (c :: hd [] (split sep s)) :: tl (split sep s).
Proof.
  intros Hc. cbn. destruct (N.eqb_spec c sep); [contradiction|].
  pose proof (split_nonempty sep s). destruct (split sep s); [contradiction | reflexivity].
Qed.

Lemma split_no_sep sep s : sep ∉ s -> split sep s = [s].
Proof.
  induction s as [|c s IH]; intros Hs; [reflexivity|].
  rewrite not_elem_of_cons in Hs. destruct Hs as [Hc Hs].
  rewrite split_cons_other by congruence. rewrite IH by assumption. reflexivity.
Qed.

Lemma split_app_sep sep a b :
  sep ∉ a -> split sep (a ++ sep :: b) = a :: split sep b.
Proof.
  induction a as [|c a IH]; intros Ha; cbn [app].
  - apply split_cons_sep.
  - rewrite not_elem_of_cons in Ha. destruct Ha as [Hc Ha].
    rewrite split_cons_other by congruence. rewrite IH by assumption. reflexivity.
Qed.

Lemma sep_join_cons sep s s' pieces :
  sep_join sep (s :: s' :: pieces) = s ++ sep :: sep_join sep (s' :: pieces).
Proof. reflexivity. Qed.

Lemma split_sep_join sep pieces :
  pieces <> [] -> Forall (fun s => sep ∉ s) pieces ->
  split sep (sep_join sep pieces) = pieces.
Proof.
  induction pieces as [|s pieces IH]; intros Hne Hall; [contradiction|].
  inversion Hall as [|? ? Hs Hrest]; subst.
  destruct pieces as [|s' pieces].
  - apply split_no_sep; assumption.
  - rewrite sep_join_cons, split_app_sep by assumption. rewrite IH; [reflexivity | discriminate | assumption].
Qed.

Lemma join_strs sep pieces :
  join [sep] (map PStr pieces) = Ok (sep_join sep pieces).
Proof.
  induction pieces as [|s pieces IH]; [reflexivity|].
  destruct pieces as [|s' pieces]; [reflexivity|].
  rewrite sep_join_cons. cbn [map] in *.
  change (join [sep] (PStr s :: PStr s' :: map PStr pieces))
    with (r ← join [sep] (PStr s' :: map PStr pieces); Ok (s ++ [sep] ++ r)).
  rewrite IH. reflexivity.
Qed.

Lemma for_each_app {A S} (body : S -> A -> result S) s l1 l2 :
  for_each body s (l1 ++ l2) = s' ← for_each body s l1; for_each body s' l2.
Proof.
  revert s. induction l1 as [|a l1 IH]; intros s; [reflexivity|].
  cbn. destruct (body s a); cbn; [apply IH | reflexivity].
Qed.

Lemma for_each_invariant {A S} (P : S -> Prop) (body : S -> A -> result S) :
  (forall s a s', P s -> body s a = Ok s' -> P s') ->
  forall l s s', P s -> for_each body s l = Ok s' -> P s'.
Proof.
  intros Hstep. induction l as [|a l IH]; intros s s' Hs; cbn.
  - intros [= <-]. assumption.
  - destruct (body s a) as [s1|] eqn:E; cbn; [|discriminate]. eauto.
Qed.

Lemma input_lines_unlines lines :
  Forall (fun l => LF ∉ l) lines ->
  input_lines (unlines lines) = List.filter nonblank lines.
Proof.
  intros Hall. unfold input_lines, unlines.
  destruct lines as [|l lines]; [reflexivity|].
  rewrite split_sep_join; [reflexivity | discriminate | assumption].
Qed.

(** What the loop body does, by the shape of the line. *)
Lemma parse_line_comment cookies line :
  is_comment line = true -> parse_line cookies line = Ok cookies.
Proof. unfold parse_line. intros ->. reflexivity. Qed.

Lemma parse_line_short cookies line :
  (length (split TAB (strip line)) < 7)%nat -> parse_line cookies line = Ok cookies.
Proof.
  unfold parse_line. intros H. destruct (is_comment line); [reflexivity|].
  destruct (Nat.leb_spec 7 (length (split TAB (strip line)))); [lia | reflexivity].
Qed.

Lemma parse_line_fields cookies line f0 f1 f2 f3 f4 f5 f6 extra :
  is_comment line = false ->
  split TAB (strip line) = f0 :: f1 :: f2 :: f3 :: f4 :: f5 :: f6 :: extra ->
  parse_line cookies line =
    expiration ← parse_expiration f4;
    Ok (<[f5 := mkCookie
                  (if startswith (U "#HttpOnly") f0 then replace (U "#HttpOnly_") [] f0 else f0)
                  (str_eqb (upper f1) (U "TRUE")) f2
                  (str_eqb (upper f3) (U "TRUE")) (Some expiration) f5 f6]> cookies).
Proof.
  unfold parse_line. intros -> ->. reflexivity.
Qed.

(** Every successful step leaves the dictionary alone or stores one
    record under its own name. *)
Lemma parse_line_ok cookies line cookies' :
  parse_line cookies line = Ok cookies' ->
  cookies' = cookies \/ exists cookie, cookies' = <[name cookie := cookie]> cookies.
Proof.
  destruct (is_comment line) eqn:Hc.
  { rewrite parse_line_comment by assumption. intros [= <-]. auto. }
  destruct (Nat.lt_ge_cases (length (split TAB (strip line))) 7) as [Hlen|Hlen].
  { rewrite parse_line_short by assumption. intros [= <-]. auto. }
  destruct (split TAB (strip line)) as [|f0 [|f1 [|f2 [|f3 [|f4 [|f5 [|f6 extra]]]]]]] eqn:Hf;
    cbn in Hlen; try lia.
  rewrite (parse_line_fields _ _ _ _ _ _ _ _ _ _ Hc Hf).
  destruct (parse_expiration f4) as [e|]; cbn; [|discriminate].
  intros [= <-]. right. eexists (mkCookie _ _ _ _ _ _ _). reflexivity.
Qed.

Lemma parse_line_frame cookies line :
  parse_line cookies line = cookies' ← parse_line ∅ line; Ok (cookies' ∪ cookies).
Proof.
  destruct (is_comment line) eqn:Hc.
  { rewrite !parse_line_comment by assumption. cbn. by rewrite (left_id_L ∅ (∪)). }
  destruct (Nat.lt_ge_cases (length (split TAB (strip line))) 7) as [Hlen|Hlen].
  { rewrite !parse_line_short by assumption. cbn. by rewrite (left_id_L ∅ (∪)). }
  destruct (split TAB (strip line)) as [|f0 [|f1 [|f2 [|f3 [|f4 [|f5 [|f6 extra]]]]]]] eqn:Hf;
    cbn in Hlen; try lia.
  rewrite !(parse_line_fields _ _ _ _ _ _ _ _ _ _ Hc Hf).
  destruct (parse_expiration f4) as [e|]; cbn; [|reflexivity].
  by rewrite <- insert_union_l, (left_id_L ∅ (∪)).
Qed.

(** The parser returns a mapping when every line can be processed on
    its own. *)
Lemma parse_from_string_returns input_string :
  Forall (fun line => exists cookies, parse_line ∅ line = Ok cookies) (input_lines input_string) ->
  exists cookies, parse_from_string input_string = Ok cookies.
Proof.
  unfold parse_from_string. intros Hall. generalize (∅ : gmap str Cookie).
  induction Hall as [|line lines [m Hline] _ IH]; intros cookies; cbn; [eauto|].
  rewrite parse_line_frame, Hline. cbn. apply IH.
Qed.

(** ** The parser *)

(** C4: a line that, trimmed and split on tabs, has fewer than seven
    fields leaves the dictionary of the loop unchanged and raises
    nothing; the text with the line parses to the same result as the
    text without it, so no record, not even a partial one, comes from a
    line of six fields. *)
Theorem C4_short_line_ignored (line : str) :
  (length (split TAB (strip line)) < 7)%nat ->
  (forall cookies, parse_line cookies line = Ok cookies) /\
  (forall before after,
     Forall (fun l => LF ∉ l) (before ++ line :: after) ->
     parse_from_string (unlines (before ++ line :: after)) =
     parse_from_string (unlines (before ++ after))).
Proof.
  intros Hlen. split; [intros; by apply parse_line_short|].
  intros before after Hall. unfold parse_from_string.
  assert (Forall (fun l => LF ∉ l) (before ++ after)) as Hall'.
  { apply Forall_app in Hall as [Hb Ha]. apply Forall_app. split; [done|].
    by inversion Ha. }
  rewrite !input_lines_unlines by assumption.
  rewrite !List.filter_app, !for_each_app.
  destruct (for_each parse_line ∅ (List.filter nonblank before)) as [cookies|]; cbn;
    [|reflexivity].
  destruct (nonblank line); cbn; [|reflexivity].
  rewrite parse_line_short by assumption. reflexivity.
Qed.

Lemma C4_short_line_ignored_witness :
  let good := tabbed [U "x.com"; U "TRUE"; U "/"; U "FALSE"; U "12"; U "a"; U "1"] in
  let six := tabbed [U "y.org"; U "TRUE"; U "/"; U "FALSE"; U "34"; U "b"] in
  parse_line ∅ six = Ok ∅ /\
  parse_from_string (unlines [good; six]) = parse_from_string (unlines [good]).
Proof.
  intros good six.
  destruct (C4_short_line_ignored six) as [Hstep Htext].
  - vm_compute. lia.
  - split; [apply Hstep|].
    apply (Htext [good] []).
    apply (bool_decide_unpack _). vm_compute. exact I.
Defined.

(** C9: every key of the mapping returned by the parser is the [name]
    attribute of the record stored under it. *)
Theorem C9_keys_are_names (input_string : str) (cookies : gmap str Cookie)
    (key : str) (cookie : Cookie) :
  parse_from_string input_string = Ok cookies ->
  cookies !! key = Some cookie ->
  name cookie = key.
Proof.
  unfold parse_from_string. intros Hparse. revert key cookie.
  refine (for_each_invariant
            (fun m : gmap str Cookie => forall key cookie, m !! key = Some cookie -> name cookie = key)
            parse_line _ _ _ _ _ Hparse).
  - intros m line m' Hm [->|[c ->]]%parse_line_ok; [assumption|].
    intros key cookie. destruct (decide (name c = key)) as [<-|Hne].
    + rewrite lookup_insert_eq. by intros [= <-].
    + rewrite lookup_insert_ne by assumption. apply Hm.
  - intros key cookie. rewrite lookup_empty. discriminate.
Qed.

Lemma C9_keys_are_names_witness :
  name (mkCookie (U "x.com") true (U "/") false (Some 12%Z) (U "a") (U "1")) = U "a".
Proof.
  apply (C9_keys_are_names
           (tabbed [U "x.com"; U "TRUE"; U "/"; U "FALSE"; U "12"; U "a"; U "1"])
           {[ U "a" := mkCookie (U "x.com") true (U "/") false (Some 12%Z) (U "a") (U "1") ]}).
  - vm_compute. reflexivity.
  - vm_compute. reflexivity.
Defined.



(** The comment test looks at the raw line only: a line is skipped
    exactly when it starts with [#] and not with [#HttpOnly_]. *)
Lemma parse_line_skips_comments cookies line :
  startswith (U "#") line = true -> startswith (U "#HttpOnly_") line = false ->
  parse_line cookies line = Ok cookies.
Proof. intros H1 H2. apply parse_line_comment. unfold is_comment. by rewrite H1, H2. Qed.

(** A line that starts with [#HttpOnly_] is not a comment. *)
Lemma httponly_line_not_comment line :
  startswith (U "#HttpOnly_") line = true -> is_comment line = false.
Proof. unfold is_comment. intros ->. apply andb_false_r. Qed.

(** C3: a line whose first field is [#HttpOnly_a#HttpOnly_b.com] is not
    skipped as a comment, and the record it yields has the domain
    [ab.com]: every occurrence of [#HttpOnly_] is removed from the field,
    not only the leading one, which would leave [a#HttpOnly_b.com]. *)
Theorem C3_httponly_removed_everywhere :
  parse_from_string
    (tabbed [U "#HttpOnly_a#HttpOnly_b.com"; U "TRUE"; U "/"; U "FALSE"; U "0"; U "sid"; U "abc123"])
  = Ok {[ U "sid" := mkCookie (U "ab.com") true (U "/") false (Some 0%Z) (U "sid") (U "abc123") ]}
  /\ U "ab.com" <> U "a#HttpOnly_b.com".
Proof. split; [vm_compute; reflexivity | vm_compute; discriminate]. Qed.

(** An expiration field that is not made of digits only, such as one
    with a leading minus sign, is read as 0. *)
Lemma parse_expiration_not_digits field :
  isdigit field = false -> parse_expiration field = Ok 0%Z.
Proof. unfold parse_expiration. intros ->. reflexivity. Qed.

Example parse_negative_expiration :
  parse_from_string
    (tabbed [U "x.com"; U "TRUE"; U "/"; U "FALSE"; U "-5"; U "a"; U "1"])
  = Ok {[ U "a" := mkCookie (U "x.com") true (U "/") false (Some 0%Z) (U "a") (U "1") ]}.
Proof. vm_compute. reflexivity. Qed.

(** C5: on a line whose expiration field is the superscript two
    (U+00B2), which is a digit for [isdigit] and not a decimal digit for
    [int], the parser raises [ValueError] instead of returning a
    mapping. *)
Theorem C5_superscript_digit_raises :
  isdigit [0xB2] = true /\
  parse_from_string
    (tabbed [U "x.com"; U "TRUE"; U "/"; U "FALSE"; [0xB2]; U "a"; U "1"])
  = Raise ValueError.
Proof. split; vm_compute; reflexivity. Qed.

(** C6: when a line of the input yields a record named [n] and no later
    line does, the mapping returned holds that record under [n], whatever
    records earlier lines stored under the same name. *)
Theorem C6_last_line_wins (input_string : str) (before after : list str)
    (line n : str) (cookie : Cookie) (cookies : gmap str Cookie) :
  input_lines input_string = before ++ line :: after ->
  parse_line ∅ line = Ok {[ n := cookie ]} ->
  Forall (fun l => forall cookie', parse_line ∅ l <> Ok {[ n := cookie' ]}) after ->
  parse_from_string input_string = Ok cookies ->
  cookies !! n = Some cookie.
Proof.
  unfold parse_from_string. intros -> Hline Hafter.
  rewrite for_each_app.
  destruct (for_each parse_line ∅ before) as [m0|]; cbn; [|discriminate].
  rewrite (parse_line_frame m0), Hline. cbn.
  assert (({[ n := cookie ]} ∪ m0) !! n = Some cookie) as Hn.
  { apply lookup_union_Some_l, lookup_singleton_eq. }
  revert Hn. generalize ({[ n := cookie ]} ∪ m0). clear m0 Hline.
  induction after as [|l after IH]; intros m Hm; cbn.
  - intros [= <-]. assumption.
  - inversion Hafter as [|? ? Hl Hrest]; subst.
    destruct (parse_line m l) as [m'|] eqn:E; cbn; [|discriminate].
    apply IH; [assumption|].
    rewrite parse_line_frame in E.
    destruct (parse_line ∅ l) as [m1|] eqn:E1; cbn in E; [|discriminate].
    injection E as <-.
    apply parse_line_ok in E1 as [->|[c ->]].
    + by rewrite (left_id_L ∅ (∪)).
    + rewrite insert_empty in *.
      destruct (decide (name c = n)) as [Heq|Hne].
      * destruct (Hl c). by rewrite <- Heq.
      * rewrite lookup_union_r; [assumption|]. by rewrite lookup_singleton_ne.
Qed.

Lemma C6_last_line_wins_witness :
  (<[ U "b" := mkCookie (U "z.net") false (U "/") false (Some 56%Z) (U "b") (U "other") ]>
     {[ U "a" := mkCookie (U "y.org") false (U "/p") true (Some 34%Z) (U "a") (U "new") ]}
   : gmap str Cookie) !! U "a"
  = Some (mkCookie (U "y.org") false (U "/p") true (Some 34%Z) (U "a") (U "new")).
Proof.
  apply (C6_last_line_wins
    (unlines [ tabbed [U "x.com"; U "TRUE"; U "/"; U "FALSE"; U "12"; U "a"; U "old"];
               tabbed [U "y.org"; U "FALSE"; U "/p"; U "TRUE"; U "34"; U "a"; U "new"];
               tabbed [U "z.net"; U "FALSE"; U "/"; U "FALSE"; U "56"; U "b"; U "other"] ])
    [ tabbed [U "x.com"; U "TRUE"; U "/"; U "FALSE"; U "12"; U "a"; U "old"] ]
    [ tabbed [U "z.net"; U "FALSE"; U "/"; U "FALSE"; U "56"; U "b"; U "other"] ]
    (tabbed [U "y.org"; U "FALSE"; U "/p"; U "TRUE"; U "34"; U "a"; U "new"])).
  - vm_compute. reflexivity.
  - vm_compute. reflexivity.
  - constructor; [|constructor]. intros cookie' H.
    apply (f_equal (fun r => match r with Ok m => m !! U "b" | Raise _ => None end)) in H.
    vm_compute in H. discriminate.
  - vm_compute. reflexivity.
Defined.

(** ** Decimal strings *)

Lemma ascii_digit_cases c :
  is_ascii_digit c = true ->
  c = 48 \/ c = 49 \/ c = 50 \/ c = 51 \/ c = 52 \/ c = 53 \/ c = 54 \/ c = 55 \/
  c = 56 \/ c = 57.
Proof. unfold is_ascii_digit. rewrite andb_true_iff, !N.leb_le. lia. Qed.

Ltac by_digit_cases H :=
  apply ascii_digit_cases in H;
  repeat (destruct H as [H|H]); subst; vm_compute; try reflexivity; try discriminate.

Lemma ascii_digit_is_digit c : is_ascii_digit c = true -> Unicode.is_digit c = true.
Proof. intros H. by_digit_cases H. Qed.

Lemma ascii_digit_not_space c : is_ascii_digit c = true -> Unicode.is_space c = false.
Proof. intros H. by_digit_cases H. Qed.

Lemma ascii_digit_not_int_space c : is_ascii_digit c = true -> is_int_space c = false.
Proof. intros H. by_digit_cases H. Qed.

Lemma ascii_digit_is_decimal c : is_ascii_digit c = true -> Unicode.is_decimal c = true.
Proof. intros H. by_digit_cases H. Qed.

Lemma ascii_digit_plain c sep :
  is_ascii_digit c = true -> (sep < 48) -> c <> sep.
Proof. unfold is_ascii_digit. rewrite andb_true_iff, !N.leb_le. lia. Qed.

Lemma uint_digits_ascii d : forallb is_ascii_digit (uint_digits d) = true.
Proof. induction d; cbn [uint_digits forallb]; try rewrite IHd; reflexivity. Qed.

Lemma scan_digits_decimal c v acc s :
  Unicode.decimal_value c = Some v ->
  scan_digits acc (c :: s) = scan_digits (10 * acc + v) s.
Proof. cbn [scan_digits]. intros ->. reflexivity. Qed.

Lemma scan_digits_uint d acc :
  scan_digits acc (uint_digits d) = (uint_value acc d, []).
Proof.
  revert acc. induction d; intros acc; cbn [uint_digits uint_value]; [reflexivity|..].
  all: erewrite scan_digits_decimal by (vm_compute; reflexivity); apply IHd.
Qed.

Lemma of_uint_acc_value d p : Npos (Pos.of_uint_acc d p) = uint_value (Npos p) d.
Proof.
  revert p. induction d; intros p; cbn [Pos.of_uint_acc uint_value]; [reflexivity|..].
  all: rewrite IHd; f_equal; lia.
Qed.

Lemma of_uint_value d : Pos.of_uint d = uint_value 0 d.
Proof.
  induction d; cbn [Pos.of_uint uint_value]; [reflexivity|..].
  all: first [ exact IHd | apply of_uint_acc_value ].
Qed.

Lemma uint_value_to_uint p : uint_value 0 (Pos.to_uint p) = Npos p.
Proof. rewrite <- of_uint_value. apply DecimalPos.Unsigned.of_to. Qed.

(** The decimal string of a positive integer converts back to it. *)
Lemma int_of_str_of_int e : (0 < e)%Z -> int_of_str (str_of_int e) = Ok e.
Proof.
  destruct e as [|p|p]; try lia. intros _. cbn [str_of_int].
  pose proof (uint_digits_ascii (Pos.to_uint p)) as Hd.
  pose proof (scan_digits_uint (Pos.to_uint p) 0) as Hscan.
  pose proof (DecimalPos.Unsigned.to_uint_nonnil p) as Hnil.
  rewrite uint_value_to_uint in Hscan.
  destruct (uint_digits (Pos.to_uint p)) as [|c s] eqn:E.
  { destruct (Pos.to_uint p); done. }
  cbn [forallb] in Hd. apply andb_true_iff in Hd as [Hc _].
  unfold int_of_str. cbn [dropwhile].
  rewrite (ascii_digit_not_int_space c Hc).
  assert (c <> 45 /\ c <> 43) as [H45 H43]
    by (split; apply ascii_digit_plain; [assumption | lia | assumption | lia]).
  assert (match c :: s with
          | 45 :: r => (true, r)
          | 43 :: r => (false, r)
          | _ => (false, c :: s)
          end = (false, c :: s)) as ->.
  { apply ascii_digit_cases in Hc. repeat (destruct Hc as [Hc|Hc]); subst; reflexivity. }
  rewrite (ascii_digit_is_decimal c Hc), Hscan. reflexivity.
Qed.

Lemma isdigit_str_of_int e : (0 < e)%Z -> isdigit (str_of_int e) = true.
Proof.
  destruct e as [|p|p]; try lia. intros _. cbn [str_of_int].
  pose proof (uint_digits_ascii (Pos.to_uint p)) as Hd.
  pose proof (DecimalPos.Unsigned.to_uint_nonnil p) as Hnil.
  destruct (uint_digits (Pos.to_uint p)) as [|c s] eqn:E.
  { destruct (Pos.to_uint p); done. }
  unfold isdigit. rewrite forallb_forall in *.
  intros x Hx. apply ascii_digit_is_digit, Hd, Hx.
Qed.

Lemma parse_expiration_str_of_int e :
  (0 < e)%Z -> parse_expiration (str_of_int e) = Ok e.
Proof.
  intros He. unfold parse_expiration.
  rewrite isdigit_str_of_int by assumption. by apply int_of_str_of_int.
Qed.


(** ** Writing, then parsing *)

Lemma lstrip_first c s : Unicode.is_space c = false -> lstrip (c :: s) = c :: s.
Proof. unfold lstrip. cbn [dropwhile]. intros ->. reflexivity. Qed.

Lemma rstrip_last s c : Unicode.is_space c = false -> rstrip (s ++ [c]) = s ++ [c].
Proof.
  unfold rstrip. intros Hc. rewrite rev_app_distr. cbn [rev app dropwhile].
  rewrite Hc. cbn [rev]. by rewrite rev_involutive.
Qed.

Lemma strip_first_last c s c' :
  Unicode.is_space c = false -> Unicode.is_space c' = false ->
  strip (c :: s ++ [c']) = c :: s ++ [c'].
Proof.
  intros Hc Hc'. unfold strip. rewrite lstrip_first by assumption.
  by rewrite app_comm_cons, rstrip_last.
Qed.

Lemma sep_join_first sep c s pieces :
  sep_join sep ((c :: s) :: pieces) = c :: sep_join sep (s :: pieces).
Proof. destruct pieces; reflexivity. Qed.

Lemma sep_join_last sep pieces s c :
  sep_join sep (pieces ++ [s ++ [c]]) = sep_join sep (pieces ++ [s]) ++ [c].
Proof.
  induction pieces as [|p pieces IH]; [reflexivity|].
  cbn [app]. destruct pieces as [|p' pieces].
  - cbn. by rewrite <- app_assoc.
  - cbn [app] in *. rewrite !sep_join_cons, IH. by rewrite <- app_assoc.
Qed.

Lemma not_elem_of_sep_join c sep pieces :
  c <> sep -> Forall (fun s => c ∉ s) pieces -> c ∉ sep_join sep pieces.
Proof.
  intros Hc. induction 1 as [|s pieces Hs Hrest IH]; [apply not_elem_of_nil|].
  destruct pieces as [|s' pieces]; [assumption|].
  rewrite sep_join_cons, not_elem_of_app, not_elem_of_cons. auto.
Qed.

Lemma filter_all {A} (f : A -> bool) l :
  Forall (fun a => f a = true) l -> List.filter f l = l.
Proof. induction 1 as [|a l Ha _ IH]; cbn; [reflexivity|]. by rewrite Ha, IH. Qed.













Ltac decide_closed := apply (bool_decide_unpack _); vm_compute; exact I.




(** * Further properties *)

(** ** The parser, line by line *)

Lemma split_app_cut sep a b :
  split sep (a ++ sep :: b) = split sep a ++ split sep b.
Proof.
  induction a as [|c a IH]; cbn [app].
  - apply split_cons_sep.
  - destruct (N.eqb_spec c sep) as [->|Hc].
    + rewrite !split_cons_sep, IH. reflexivity.
    + rewrite !split_cons_other by assumption. rewrite IH.
      pose proof (split_nonempty sep a). by destruct (split sep a).
Qed.

Lemma input_lines_app a b :
  input_lines (a ++ LF :: b) = input_lines a ++ input_lines b.
Proof. unfold input_lines. by rewrite split_app_cut, List.filter_app. Qed.

Lemma for_each_parse_frame cookies lines :
  for_each parse_line cookies lines =
  cookies' ← for_each parse_line ∅ lines; Ok (cookies' ∪ cookies).
Proof.
  revert cookies. induction lines as [|line lines IH]; intros cookies; cbn [for_each].
  - cbn. by rewrite (left_id_L ∅ (∪)).
  - rewrite (parse_line_frame cookies).
    destruct (parse_line ∅ line) as [m0|]; cbn; [|reflexivity].
    rewrite (IH (m0 ∪ cookies)), (IH m0).
    destruct (for_each parse_line ∅ lines) as [m'|]; cbn; [|reflexivity].
    by rewrite (assoc_L (∪)).
Qed.

(** X1: parsing two texts joined by a newline gives the union of the two
    mappings, in which the entries of the second text replace those of
    the first under the same name; an exception of the first text comes
    before one of the second. *)
Theorem parse_from_string_app (a b : str) :
  parse_from_string (a ++ LF :: b) =
  first ← parse_from_string a; second ← parse_from_string b; Ok (second ∪ first).
Proof.
  unfold parse_from_string. rewrite input_lines_app, for_each_app.
  destruct (for_each parse_line ∅ (input_lines a)) as [m|]; cbn; [|reflexivity].
  apply for_each_parse_frame.
Qed.

Lemma for_each_ignored cookies lines :
  Forall (fun line => is_comment line = true) lines ->
  for_each parse_line cookies lines = Ok cookies.
Proof.
  induction 1 as [|line lines Hline _ IH]; cbn; [reflexivity|].
  by rewrite parse_line_comment.
Qed.

(** X2: a text in which every line is blank or a comment parses to the
    empty mapping. *)
Theorem parse_only_comments (input_string : str) :
  Forall (fun line => nonblank line = false \/ is_comment line = true)
         (split LF input_string) ->
  parse_from_string input_string = Ok ∅.
Proof.
  intros Hall. unfold parse_from_string. apply for_each_ignored.
  unfold input_lines. fold nonblank.
  induction Hall as [|line lines Hline _ IH]; cbn [List.filter]; [constructor|].
  destruct (nonblank line) eqn:E; [|assumption].
  constructor; [|assumption]. by destruct Hline.
Qed.

Lemma parse_only_comments_witness :
  parse_from_string
    (unlines [ U "# Netscape HTTP Cookie File"; []; [32; TAB]; U "#x" ++ [TAB] ++ U "y" ])
  = Ok ∅.
Proof.
  apply parse_only_comments. decide_closed.
Defined.

Lemma split_pieces_forallb (P : N -> bool) sep s :
  forallb P s = true -> Forall (fun piece => forallb P piece = true) (split sep s).
Proof.
  induction s as [|c s IH]; cbn [forallb]; [by repeat constructor|].
  intros [Hc Hs]%andb_true_iff. specialize (IH Hs).
  destruct (N.eqb_spec c sep) as [->|Hne].
  - rewrite split_cons_sep. by constructor.
  - rewrite split_cons_other by assumption.
    pose proof (split_nonempty sep s). destruct (split sep s) as [|piece pieces]; [done|].
    inversion IH; subst. constructor; [|assumption]. cbn. by rewrite Hc.
Qed.

Lemma strip_all_space s : forallb Unicode.is_space s = true -> strip s = [].
Proof.
  intros Hs. unfold strip. assert (lstrip s = []) as ->; [|reflexivity].
  unfold lstrip. induction s as [|c s IH]; [reflexivity|].
  cbn in *. apply andb_true_iff in Hs as [-> Hs]. auto.
Qed.

(** X3: a text made of white space only (spaces, tabs, newlines and the
    other characters [strip] removes) parses to the empty mapping. *)
Theorem parse_white_space (input_string : str) :
  forallb Unicode.is_space input_string = true ->
  parse_from_string input_string = Ok ∅.
Proof.
  intros Hs. unfold parse_from_string, input_lines.
  assert (List.filter (fun line => negb (str_eqb (strip line) [])) (split LF input_string) = [])
    as ->; [|reflexivity].
  pose proof (split_pieces_forallb _ LF _ Hs) as Hall.
  induction Hall as [|line lines Hline _ IH]; [reflexivity|].
  cbn [List.filter]. by rewrite strip_all_space.
Qed.

Lemma parse_white_space_witness :
  parse_from_string [32; LF; TAB; 0xA0; LF; 13; LF] = Ok ∅.
Proof. apply parse_white_space. reflexivity. Defined.

(** X4: a line that is blank or a comment can be put between any two
    texts without changing what the parser returns, exception
    included. *)
Theorem parse_ignores_comment_line (a b line : str) :
  LF ∉ line ->
  nonblank line = false \/ is_comment line = true ->
  parse_from_string (a ++ LF :: line ++ LF :: b) = parse_from_string (a ++ LF :: b).
Proof.
  intros Hlf Hline. unfold parse_from_string.
  rewrite !input_lines_app, !for_each_app.
  destruct (for_each parse_line ∅ (input_lines a)) as [m|]; cbn; [|reflexivity].
  unfold input_lines at 1. rewrite split_no_sep by assumption.
  cbn [List.filter]. fold (nonblank line).
  destruct (nonblank line) eqn:E; [|reflexivity].
  destruct Hline as [Hline|Hline]; [discriminate|].
  cbn [app for_each]. by rewrite parse_line_comment.
Qed.

Lemma parse_ignores_comment_line_witness :
  let first := tabbed [U "x.com"; U "TRUE"; U "/"; U "FALSE"; U "12"; U "a"; U "1"] in
  let second := tabbed [U "y.org"; U "TRUE"; U "/"; U "FALSE"; U "34"; U "b"; U "2"] in
  parse_from_string (first ++ LF :: U "# a comment" ++ LF :: second)
  = parse_from_string (first ++ LF :: second).
Proof.
  intros first second. apply parse_ignores_comment_line.
  - decide_closed.
  - right. reflexivity.
Defined.

(** ** What the parser stores *)

Lemma forallb_dropwhile {A} (P f : A -> bool) l :
  forallb P l = true -> forallb P (dropwhile f l) = true.
Proof.
  induction l as [|a l IH]; [done|]. cbn [dropwhile].
  destruct (f a); [|done]. cbn. intros [_ H]%andb_true_iff. auto.
Qed.

Lemma int_of_str_digits_nonneg s n :
  forallb Unicode.is_digit s = true -> int_of_str s = Ok n -> (0 <= n)%Z.
Proof.
  intros Hs. unfold int_of_str.
  pose proof (forallb_dropwhile Unicode.is_digit is_int_space s Hs) as H1.
  destruct (dropwhile is_int_space s) as [|c s1]; [discriminate|].
  cbn [forallb] in H1. apply andb_true_iff in H1 as [Hc _].
  assert (c <> 45) as H45 by (intros ->; vm_compute in Hc; discriminate).
  assert (match c :: s1 with
          | 45 :: r => (true, r)
          | 43 :: r => (false, r)
          | _ => (false, c :: s1)
          end = (false, match c with 43 => s1 | _ => c :: s1 end)) as ->.
  { destruct c as [|p]; [reflexivity|].
    do 6 (destruct p as [p|p|]; try reflexivity); contradiction. }
  destruct (match c with 43 => s1 | _ => c :: s1 end) as [|c' s2]; [discriminate|].
  destruct (Unicode.is_decimal c'); [|discriminate].
  destruct (scan_digits 0 (c' :: s2)) as [v rest].
  destruct (forallb is_int_space rest); [|discriminate].
  intros [= <-]. lia.
Qed.

Lemma parse_expiration_nonneg field n :
  parse_expiration field = Ok n -> (0 <= n)%Z.
Proof.
  unfold parse_expiration, isdigit. destruct field as [|c s].
  - intros [= <-]. lia.
  - destruct (forallb Unicode.is_digit (c :: s)) eqn:E.
    + by apply int_of_str_digits_nonneg.
    + intros [= <-]. lia.
Qed.

(** The step of the loop, with the fields of the record it stores. *)
Lemma parse_line_stores cookies line cookies' :
  parse_line cookies line = Ok cookies' ->
  cookies' = cookies \/
  exists f0 f1 f2 f3 f4 f5 f6 extra e,
    is_comment line = false /\
    split TAB (strip line) = f0 :: f1 :: f2 :: f3 :: f4 :: f5 :: f6 :: extra /\
    parse_expiration f4 = Ok e /\
    cookies' = <[f5 := mkCookie
                   (if startswith (U "#HttpOnly") f0 then replace (U "#HttpOnly_") [] f0 else f0)
                   (str_eqb (upper f1) (U "TRUE")) f2
                   (str_eqb (upper f3) (U "TRUE")) (Some e) f5 f6]> cookies.
Proof.
  destruct (is_comment line) eqn:Hc.
  { rewrite parse_line_comment by assumption. intros [= <-]. auto. }
  destruct (Nat.lt_ge_cases (length (split TAB (strip line))) 7) as [Hlen|Hlen].
  { rewrite parse_line_short by assumption. intros [= <-]. auto. }
  destruct (split TAB (strip line)) as [|f0 [|f1 [|f2 [|f3 [|f4 [|f5 [|f6 extra]]]]]]] eqn:Hf;
    cbn in Hlen; try lia.
  rewrite (parse_line_fields _ _ _ _ _ _ _ _ _ _ Hc Hf).
  destruct (parse_expiration f4) as [e|] eqn:He; cbn; [|discriminate].
  intros [= <-]. right. by exists f0, f1, f2, f3, f4, f5, f6, extra, e.
Qed.

(** An invariant of the loop holds of every record of the result when
    each step stores only records that satisfy it. *)
Lemma parse_from_string_records (P : Cookie -> Prop) input_string cookies :
  (forall line m m', line ∈ input_lines input_string ->
     parse_line m line = Ok m' -> m' = m \/ exists c, P c /\ m' = <[name c := c]> m) ->
  parse_from_string input_string = Ok cookies ->
  forall key cookie, cookies !! key = Some cookie -> P cookie.
Proof.
  unfold parse_from_string. intros Hstep.
  assert (forall lines m m',
            (forall line, line ∈ lines -> line ∈ input_lines input_string) ->
            (forall key cookie, m !! key = Some cookie -> P cookie) ->
            for_each parse_line m lines = Ok m' ->
            forall key cookie, m' !! key = Some cookie -> P cookie) as Hloop.
  { induction lines as [|line lines IH]; intros m m' Hin Hm; cbn.
    - intros [= <-]. assumption.
    - destruct (parse_line m line) as [m1|] eqn:E; cbn; [|discriminate].
      apply IH; [intros; apply Hin; by right|].
      destruct (Hstep line m m1) as [->|(c & Hc & ->)]; [apply Hin; by left|assumption|assumption|].
      intros key cookie. destruct (decide (name c = key)) as [<-|Hne].
      + rewrite lookup_insert_eq. by intros [= <-].
      + rewrite lookup_insert_ne by assumption. apply Hm. }
  intros Hparse. eapply Hloop; [| |exact Hparse]; [auto|].
  intros key cookie. rewrite lookup_empty. discriminate.
Qed.

(** X5: every record of the mapping the parser returns has an
    expiration that is an integer, never [None], and not negative. *)
Theorem parsed_expiration_nonneg (input_string : str) (cookies : gmap str Cookie)
    (key : str) (cookie : Cookie) :
  parse_from_string input_string = Ok cookies ->
  cookies !! key = Some cookie ->
  exists e, expiration cookie = Some e /\ (0 <= e)%Z.
Proof.
  intros Hparse.
  apply (parse_from_string_records
           (fun c => exists e, expiration c = Some e /\ (0 <= e)%Z) input_string cookies);
    [|assumption].
  intros line m m' _ [->|(f0&f1&f2&f3&f4&f5&f6&extra&e&_&_&He&->)]%parse_line_stores; [auto|].
  right. eexists (mkCookie _ _ _ _ _ _ _). split; [|reflexivity].
  exists e. split; [reflexivity|]. by apply parse_expiration_nonneg in He.
Qed.

Lemma parsed_expiration_nonneg_witness :
  exists e, expiration (mkCookie (U "x.com") true (U "/") false (Some 0%Z) (U "a") (U "1"))
            = Some e /\ (0 <= e)%Z.
Proof.
  apply (parsed_expiration_nonneg
           (tabbed [U "x.com"; U "TRUE"; U "/"; U "FALSE"; U "-5"; U "a"; U "1"])
           {[ U "a" := mkCookie (U "x.com") true (U "/") false (Some 0%Z) (U "a") (U "1") ]}
           (U "a")).
  - vm_compute. reflexivity.
  - vm_compute. reflexivity.
Defined.

Lemma split_piece_elem sep s piece c :
  piece ∈ split sep s -> c ∈ piece -> c ∈ s /\ c <> sep.
Proof.
  revert piece. induction s as [|c0 s IH]; intros piece.
  - cbn. intros ->%list_elem_of_singleton Hc. by apply not_elem_of_nil in Hc.
  - destruct (N.eqb_spec c0 sep) as [->|Hne].
    + rewrite split_cons_sep. intros [->|Hp]%elem_of_cons Hc.
      * by apply not_elem_of_nil in Hc.
      * destruct (IH piece Hp Hc). split; [by right | done].
    + rewrite split_cons_other by assumption.
      pose proof (split_nonempty sep s) as Hs.
      destruct (split sep s) as [|first rest]; [done|]. cbn [hd tl].
      intros [->|Hp]%elem_of_cons Hc.
      * apply elem_of_cons in Hc as [->|Hc]; [split; [by left | done]|].
        destruct (IH first (list_elem_of_here _ _) Hc). split; [by right | done].
      * destruct (IH piece (list_elem_of_further _ _ _ Hp) Hc). split; [by right | done].
Qed.

Lemma elem_of_dropwhile {A} (f : A -> bool) l a : a ∈ dropwhile f l -> a ∈ l.
Proof.
  induction l as [|b l IH]; [done|]. cbn [dropwhile].
  destruct (f b); [|done]. intros H. right. auto.
Qed.

Lemma elem_of_strip s c : c ∈ strip s -> c ∈ s.
Proof.
  unfold strip, rstrip, lstrip. intros H.
  apply list_elem_of_In, in_rev, list_elem_of_In, elem_of_dropwhile in H.
  apply list_elem_of_In, in_rev, list_elem_of_In in H. by apply elem_of_dropwhile in H.
Qed.

Lemma elem_of_replace_from old skip s c : c ∈ replace_from old [] skip s -> c ∈ s.
Proof.
  revert skip. induction s as [|c0 s IH]; intros skip; [done|].
  cbn [replace_from]. destruct skip as [|k].
  - destruct (startswith old (c0 :: s)).
    + cbn [app]. intros H. right. eauto.
    + intros [->|H]%elem_of_cons; [by left | right; eauto].
  - intros H. right. eauto.
Qed.

Lemma input_line_no_newline input_string line :
  line ∈ input_lines input_string -> LF ∉ line.
Proof.
  unfold input_lines. intros H%list_elem_of_In%filter_In. destruct H as [H _].
  apply list_elem_of_In in H. intros Hc.
  by destruct (split_piece_elem _ _ _ _ H Hc).
Qed.

Lemma field_plain line field :
  LF ∉ line -> field ∈ split TAB (strip line) -> plain field.
Proof.
  intros Hline Hf. split; intros Hc; destruct (split_piece_elem _ _ _ _ Hf Hc) as [Hin Hne].
  - done.
  - by apply elem_of_strip in Hin.
Qed.

(** X6: no field of a record the parser returns holds a tab or a
    newline, so the records meet the condition under which the writers
    keep one record on one line. *)
Theorem parsed_fields_plain (input_string : str) (cookies : gmap str Cookie)
    (key : str) (cookie : Cookie) :
  parse_from_string input_string = Ok cookies ->
  cookies !! key = Some cookie ->
  fields_plain cookie.
Proof.
  intros Hparse.
  apply (parse_from_string_records fields_plain input_string cookies); [|assumption].
  intros line m m' Hline%input_line_no_newline
    [->|(f0&f1&f2&f3&f4&f5&f6&extra&e&_&Hf&_&->)]%parse_line_stores; [auto|].
  right. eexists (mkCookie _ _ _ _ _ _ _). split; [|reflexivity].
  assert (forall f, f ∈ f0 :: f1 :: f2 :: f3 :: f4 :: f5 :: f6 :: extra -> plain f) as Hplain.
  { intros f Hin. apply (field_plain line); [assumption|]. by rewrite Hf. }
  unfold fields_plain. cbn. repeat split; try (apply Hplain; set_solver).
  all: destruct (startswith _ f0); try (apply Hplain; set_solver).
  all: intros Hc; apply elem_of_replace_from in Hc; revert Hc; apply Hplain; set_solver.
Qed.

Lemma parsed_fields_plain_witness :
  fields_plain (mkCookie (U "x.com") true (U "/") false (Some 12%Z) (U "a") (U "1")).
Proof.
  apply (parsed_fields_plain
           (tabbed [U "#HttpOnly_x.com"; U "TRUE"; U "/"; U "FALSE"; U "12"; U "a"; U "1"]
              ++ [13; LF])
           {[ U "a" := mkCookie (U "x.com") true (U "/") false (Some 12%Z) (U "a") (U "1") ]}
           (U "a")).
  - vm_compute. reflexivity.
  - vm_compute. reflexivity.
Defined.

(** X7: the mapping returned has at most as many entries as the input
    has lines that are neither blank nor comments. *)
Theorem parsed_size_bound (input_string : str) (cookies : gmap str Cookie) :
  parse_from_string input_string = Ok cookies ->
  (size cookies <=
   length (List.filter (fun line => negb (is_comment line)) (input_lines input_string)))%nat.
Proof.
  unfold parse_from_string.
  assert (forall lines (m m' : gmap str Cookie),
            for_each parse_line m lines = Ok m' ->
            (size m' <= size m +
               length (List.filter (fun line => negb (is_comment line)) lines))%nat) as Hloop.
  { induction lines as [|line lines IH]; intros m m'; cbn [for_each List.filter].
    - intros [= <-]. cbn. lia.
    - destruct (parse_line m line) as [m1|] eqn:E; cbn; [|discriminate].
      intros H%IH. destruct (is_comment line) eqn:Hc; cbn [negb length].
      + rewrite parse_line_comment in E by assumption. injection E as <-. lia.
      + apply parse_line_ok in E as [->|[c ->]]; [lia|].
        pose proof (map_size_insert (name c) c m) as Hs.
        destruct (m !! name c); cbn in Hs; lia. }
  intros H%Hloop. by rewrite map_size_empty in H.
Qed.

Lemma parsed_size_bound_witness :
  (size ({[ U "a" := mkCookie (U "y.org") true (U "/") false (Some 34%Z) (U "a") (U "2") ]}
         : gmap str Cookie) <= 2)%nat.
Proof.
  apply (parsed_size_bound
    (unlines [ U "# two records of one name";
               tabbed [U "x.com"; U "TRUE"; U "/"; U "FALSE"; U "12"; U "a"; U "1"];
               tabbed [U "y.org"; U "TRUE"; U "/"; U "FALSE"; U "34"; U "a"; U "2"] ])).
  vm_compute. reflexivity.
Defined.

(** ** The two flags *)

(** The only characters whose upper case is made of letters of [TRUE]
    are those letters and their lower case. *)
Lemma upper_char_true_letter c :
  forallb is_true_letter (Unicode.upper_char c) = true ->
  exists x, Unicode.upper_char c = [x] /\ (c = x \/ c = x + 32).
Proof.
  unfold Unicode.upper_char.
  destruct (List.find _ Unicode.upper_special) as [e|] eqn:Hs.
  { apply find_some in Hs as [Hin _].
    assert (forallb (fun e => negb (forallb is_true_letter (snd e))) Unicode.upper_special = true)
      as Hall by (vm_compute; reflexivity).
    rewrite forallb_forall in Hall. specialize (Hall e Hin).
    intros H. rewrite H in Hall. discriminate. }
  destruct (List.find _ Unicode.upper_ranges) as [[[[lo hi] step] target]|] eqn:Hr.
  - apply find_some in Hr as [Hin Hc].
    assert (forallb (fun e : N * N * N * N =>
                       let '(lo, hi, step, target) := e in
                       ((lo =? 97) && (hi =? 122) && (target =? 65)) ||
                       (85 <? target) ||
                       ((lo =? hi) && negb (is_true_letter target)))
                    Unicode.upper_ranges = true) as Hall by (vm_compute; reflexivity).
    rewrite forallb_forall in Hall. specialize (Hall _ Hin). cbn beta iota in Hall.
    unfold Unicode.in_upper_range in Hc.
    apply andb_true_iff in Hc as [[Hlo Hhi]%andb_true_iff _].
    apply N.leb_le in Hlo, Hhi.
    cbn [forallb]. rewrite andb_true_r. intros Hletter.
    exists (target + (c - lo)). split; [reflexivity|].
    apply orb_true_iff in Hall as [[Hascii|Hbig]%orb_true_iff|Hone].
    + apply andb_true_iff in Hascii as [[->%N.eqb_eq ->%N.eqb_eq]%andb_true_iff ->%N.eqb_eq].
      right. lia.
    + apply N.ltb_lt in Hbig. unfold is_true_letter in Hletter.
      rewrite !orb_true_iff, !N.eqb_eq in Hletter. lia.
    + apply andb_true_iff in Hone as [->%N.eqb_eq Hno].
      assert (c = hi) as -> by lia. rewrite N.sub_diag, N.add_0_r in Hletter.
      rewrite Hletter in Hno. discriminate.
  - cbn [forallb]. intros _. exists c. auto.
Qed.

Lemma upper_cons_letter c s x rest :
  is_true_letter x = true -> forallb is_true_letter rest = true ->
  upper (c :: s) = x :: rest ->
  any_case x c /\ upper s = rest.
Proof.
  unfold upper. cbn [map concat]. intros Hx Hrest Heq.
  destruct (upper_char_true_letter c) as (y & Hy & Hc).
  - assert (forallb is_true_letter (Unicode.upper_char c ++ concat (map Unicode.upper_char s)) = true)
      as H by (rewrite Heq; cbn; by rewrite Hx, Hrest).
    rewrite forallb_app in H. by apply andb_true_iff in H as [H _].
  - rewrite Hy in Heq. injection Heq as -> ->. done.
Qed.

Lemma upper_nil s : upper s = [] -> s = [].
Proof.
  destruct s as [|c s]; [done|]. unfold upper. cbn [map concat]. intros H.
  destruct (upper_char_true_letter c) as (y & Hy & _).
  - apply app_eq_nil in H as [-> _]. reflexivity.
  - rewrite Hy in H. discriminate.
Qed.

Lemma upper_spells_true s : upper s = U "TRUE" <-> spells_true s.
Proof.
  change (U "TRUE") with [84; 82; 85; 69]. split.
  - intros H. destruct s as [|t s]; [discriminate|].
    apply upper_cons_letter in H as [Ht H]; [|reflexivity..].
    destruct s as [|r s]; [discriminate|].
    apply upper_cons_letter in H as [Hr H]; [|reflexivity..].
    destruct s as [|u s]; [discriminate|].
    apply upper_cons_letter in H as [Hu H]; [|reflexivity..].
    destruct s as [|e s]; [discriminate|].
    apply upper_cons_letter in H as [He H]; [|reflexivity..].
    apply upper_nil in H as ->. by exists t, r, u, e.
  - intros (t & r & u & e & -> & [->| ->] & [->| ->] & [->| ->] & [->| ->]);
      vm_compute; reflexivity.
Qed.

Lemma flag_spells_true s : str_eqb (upper s) (U "TRUE") = true <-> spells_true s.
Proof. unfold str_eqb. rewrite bool_decide_eq_true. apply upper_spells_true. Qed.

(** X8: the record stored for a line has its [flag] (and its [secure])
    set exactly when the second (the fourth) field spells [TRUE] with
    ASCII letters of either case; no other string, of any alphabet, is
    read as true. *)
Theorem parsed_flags_spell_true (cookies cookies' : gmap str Cookie) (line : str)
    (f0 f1 f2 f3 f4 f5 f6 : str) (extra : list str) :
  is_comment line = false ->
  split TAB (strip line) = f0 :: f1 :: f2 :: f3 :: f4 :: f5 :: f6 :: extra ->
  parse_line cookies line = Ok cookies' ->
  exists cookie,
    cookies' !! f5 = Some cookie /\
    (flag cookie = true <-> spells_true f1) /\
    (secure cookie = true <-> spells_true f3).
Proof.
  intros Hc Hf. rewrite (parse_line_fields _ _ _ _ _ _ _ _ _ _ Hc Hf).
  destruct (parse_expiration f4) as [e|]; cbn; [|discriminate].
  intros [= <-]. eexists. split; [apply lookup_insert_eq|].
  cbn. split; apply flag_spells_true.
Qed.

Lemma parsed_flags_spell_true_witness :
  exists cookie,
    ({[ U "a" := mkCookie (U "x.com") true (U "/") false (Some 12%Z) (U "a") (U "1") ]}
       : gmap str Cookie) !! U "a" = Some cookie /\
    (flag cookie = true <-> spells_true (U "tRuE")) /\
    (secure cookie = true <-> spells_true (U "yes")).
Proof.
  apply (parsed_flags_spell_true ∅ _
           (tabbed [U "x.com"; U "tRuE"; U "/"; U "yes"; U "12"; U "a"; U "1"])
           (U "x.com") (U "tRuE") (U "/") (U "yes") (U "12") (U "a") (U "1") []).
  - vm_compute. reflexivity.
  - vm_compute. reflexivity.
  - vm_compute. reflexivity.
Defined.

(** ** When the parser raises *)










(** ** The [#HttpOnly_] marker *)

Lemma startswith_app prefix s : startswith prefix (prefix ++ s) = true.
Proof. induction prefix as [|c prefix IH]; [by destruct s|]. cbn. by rewrite N.eqb_refl. Qed.

Lemma startswith_split prefix s :
  startswith prefix s = true -> exists rest, s = prefix ++ rest.
Proof.
  revert s. induction prefix as [|c prefix IH]; intros s; [eauto|].
  destruct s as [|c' s]; [discriminate|]. cbn.
  intros [->%N.eqb_eq [rest ->]%IH]%andb_true_iff. eauto.
Qed.

Lemma replace_from_skip old new l s :
  replace_from old new (length l) (l ++ s) = replace_from old new 0 s.
Proof. induction l as [|c l IH]; [reflexivity|]. cbn. apply IH. Qed.

Lemma replace_from_match c old new s :
  replace_from (c :: old) new 0 (c :: old ++ s) = new ++ replace_from (c :: old) new 0 s.
Proof.
  cbn [replace_from].
  pose proof (startswith_app (c :: old) s) as H. cbn [app] in H. rewrite H.
  replace (length (c :: old) - 1)%nat with (length old) by (cbn [length]; lia).
  by rewrite replace_from_skip.
Qed.

Lemma replace_from_absent old new s :
  (forall a b, s <> a ++ old ++ b) -> replace_from old new 0 s = s.
Proof.
  induction s as [|c s IH]; intros Habs; [reflexivity|]. cbn [replace_from].
  destruct (startswith old (c :: s)) eqn:E.
  - apply startswith_split in E as [rest E]. destruct (Habs [] rest). by rewrite E.
  - f_equal. apply IH. intros a b ->. by apply (Habs (c :: a) b).
Qed.

(** X10: when the first field of a processed line is [#HttpOnly_]
    followed by a text in which the marker does not occur again, the
    record stored has that text as its domain. *)
Theorem httponly_prefix_stripped (cookies : gmap str Cookie) (line d : str)
    (f1 f2 f3 f4 f5 f6 : str) (extra : list str) :
  is_comment line = false ->
  split TAB (strip line) = (U "#HttpOnly_" ++ d) :: f1 :: f2 :: f3 :: f4 :: f5 :: f6 :: extra ->
  (forall a b, d <> a ++ U "#HttpOnly_" ++ b) ->
  parse_line cookies line =
    expiration ← parse_expiration f4;
    Ok (<[f5 := mkCookie d (str_eqb (upper f1) (U "TRUE")) f2
                  (str_eqb (upper f3) (U "TRUE")) (Some expiration) f5 f6]> cookies).
Proof.
  intros Hc Hf Habs. rewrite (parse_line_fields _ _ _ _ _ _ _ _ _ _ Hc Hf).
  assert (startswith (U "#HttpOnly") (U "#HttpOnly_" ++ d) = true) as ->.
  { change (U "#HttpOnly_" ++ d) with (U "#HttpOnly" ++ 95 :: d). apply startswith_app. }
  assert (replace (U "#HttpOnly_") [] (U "#HttpOnly_" ++ d) = d) as ->; [|reflexivity].
  unfold replace. change (U "#HttpOnly_") with (35 :: U "HttpOnly_").
  cbn [app]. rewrite replace_from_match. cbn [app]. by apply replace_from_absent.
Qed.

Lemma httponly_prefix_stripped_witness :
  parse_line ∅
    (tabbed [U "#HttpOnly_example.com"; U "TRUE"; U "/"; U "FALSE"; U "0"; U "sid"; U "abc123"])
  = Ok {[ U "sid" := mkCookie (U "example.com") true (U "/") false (Some 0%Z)
                       (U "sid") (U "abc123") ]}.
Proof.
  rewrite (httponly_prefix_stripped ∅ _ (U "example.com")
             (U "TRUE") (U "/") (U "FALSE") (U "0") (U "sid") (U "abc123") []).
  - vm_compute. reflexivity.
  - vm_compute. reflexivity.
  - vm_compute. reflexivity.
  - intros a b H.
    assert (35 ∈ U "example.com") as Hin.
    { rewrite H. apply elem_of_app. right. apply elem_of_app. left. by left. }
    revert Hin. decide_closed.
Defined.

(** ** Lines of seven plain fields *)

Lemma tabbed_seven f0 f1 f2 f3 f4 f5 f6 :
  Forall plain [f0; f1; f2; f3; f4; f5; f6] ->
  starts_visible f0 -> ends_visible f6 ->
  let line := tabbed [f0; f1; f2; f3; f4; f5; f6] in
  (LF ∉ line) /\ nonblank line = true /\ is_comment line = false /\
  split TAB (strip line) = [f0; f1; f2; f3; f4; f5; f6] /\
  startswith (U "#HttpOnly") f0 = false.
Proof.
  intros Hplain (c & rest & -> & Hc & Hhash) (init & c' & -> & Hc') line.
  assert (strip line = line /\ line <> [] /\ is_comment line = false) as (Hstrip & Hne & Hcom).
  { unfold line, tabbed. rewrite sep_join_first.
    change (sep_join TAB [rest; f1; f2; f3; f4; f5; init ++ [c']])
      with (sep_join TAB ([rest; f1; f2; f3; f4; f5] ++ [init ++ [c']])).
    rewrite sep_join_last. split; [|split].
    - by apply strip_first_last.
    - discriminate.
    - unfold is_comment. change (U "#") with [35]. cbn [startswith].
      apply N.eqb_neq in Hhash. rewrite N.eqb_sym in Hhash. by rewrite Hhash. }
  split; [|split; [|split; [|split]]].
  - apply not_elem_of_sep_join; [discriminate|].
    eapply Forall_impl; [exact Hplain|]. by intros s [_ ?].
  - unfold nonblank, str_eqb. rewrite Hstrip. by rewrite bool_decide_eq_false_2.
  - assumption.
  - rewrite Hstrip. apply split_sep_join; [discriminate|].
    eapply Forall_impl; [exact Hplain|]. by intros s [? _].
  - change (U "#HttpOnly") with (35 :: U "HttpOnly"). cbn [startswith].
    apply N.eqb_neq in Hhash. rewrite N.eqb_sym in Hhash. by rewrite Hhash.
Qed.

Lemma parse_line_seven cookies f0 f1 f2 f3 f4 f5 f6 :
  Forall plain [f0; f1; f2; f3; f4; f5; f6] ->
  starts_visible f0 -> ends_visible f6 ->
  parse_line cookies (tabbed [f0; f1; f2; f3; f4; f5; f6]) =
    expiration ← parse_expiration f4;
    Ok (<[f5 := mkCookie f0 (str_eqb (upper f1) (U "TRUE")) f2
                  (str_eqb (upper f3) (U "TRUE")) (Some expiration) f5 f6]> cookies).
Proof.
  intros Hplain Hs He.
  destruct (tabbed_seven _ _ _ _ _ _ _ Hplain Hs He) as (_ & _ & Hcom & Hsplit & Hhttp).
  rewrite (parse_line_fields _ _ _ _ _ _ _ _ _ _ Hcom Hsplit). by rewrite Hhttp.
Qed.


Lemma plain_str_of_int n : plain (str_of_int n).
Proof.
  assert (forall p sep, sep < 45 -> sep ∉ uint_digits (Pos.to_uint p)) as Hd.
  { intros p sep Hsep Hin.
    pose proof (uint_digits_ascii (Pos.to_uint p)) as H. rewrite forallb_forall in H.
    apply list_elem_of_In, H in Hin. apply (ascii_digit_plain sep sep) in Hin; [done|lia]. }
  destruct n as [|p|p]; cbn [str_of_int].
  - split; decide_closed.
  - split; apply Hd; reflexivity.
  - split; (apply not_elem_of_cons; split; [discriminate | apply Hd; reflexivity]).
Qed.










(** ** Files *)






(** A carriage return inside a value does not come back: the line is
    cut there when the file is read, and the value is read short. *)
Example return_in_value_lost :
  let odd := mkCookie (U "x.com") true (U "/") false (Some 5%Z) (U "a") (U "1" ++ [13] ++ U "2") in
  parse_from_string <$> (save_to_file [odd] (U "jar") ∅).1 !! U "jar"
    = Some (Ok {[ U "a" := odd ]}) /\
  parse_from_file (U "jar") (save_to_file [odd] (U "jar") ∅).1
    = inr (Ok {[ U "a" := mkCookie (U "x.com") true (U "/") false (Some 5%Z) (U "a") (U "1") ]}).
Proof. split; vm_compute; reflexivity. Qed.

(** ** The header-less serializer, whole *)

Lemma expiry_of_converts v :
  converts v = true -> expiry_of v = Ok (str_of_int (expiry_number v)).
Proof.
  unfold converts, expiry_of, expiry_number. destruct (truthy v); [|reflexivity].
  destruct (py_int v); [reflexivity | discriminate].
Qed.

Lemma expiry_of_ok v e : expiry_of v = Ok e -> converts v = true.
Proof.
  unfold converts, expiry_of. destruct (truthy v); [|reflexivity].
  destruct (py_int v); [reflexivity | discriminate].
Qed.

Lemma is_text_of v : is_text v = true -> v = PStr (text_of v).
Proof. by destruct v. Qed.

Lemma cookie_parts_serializable cookie :
  serializable cookie = true ->
  cookie_parts cookie = Ok (map PStr (raw_columns cookie)).
Proof.
  unfold serializable, cookie_parts, raw_columns.
  destruct (get cookie (U "domain") (PStr [])) as [| | |d]; try discriminate.
  destruct (get cookie (U "path") (PStr [])) as [| | |p]; try discriminate.
  destruct (get cookie (U "name") (PStr [])) as [| | |n]; try discriminate.
  destruct (get cookie (U "value") (PStr [])) as [| | |v]; try discriminate.
  cbn [is_text andb text_of]. intros He.
  rewrite include_sub_domain_of_str, (expiry_of_converts _ He). reflexivity.
Qed.

Lemma row_ok_serializable cookie parts row :
  cookie_parts cookie = Ok parts -> join [TAB] parts = Ok row ->
  serializable cookie = true.
Proof.
  intros (b & e & _ & He & ->)%cookie_parts_ok Hjoin.
  unfold serializable. rewrite (expiry_of_ok _ _ He), andb_true_r.
  destruct (get cookie (U "domain") (PStr [])), (get cookie (U "path") (PStr [])),
    (get cookie (U "name") (PStr [])), (get cookie (U "value") (PStr []));
    cbn [join mbind result_bind] in Hjoin; first [discriminate | reflexivity].
Qed.

Lemma collect_ok {A B} (f : A -> result B) l ys :
  collect f l = Ok ys -> Forall2 (fun x y => f x = Ok y) l ys.
Proof.
  revert ys. induction l as [|a l IH]; intros ys; cbn.
  - intros [= <-]. constructor.
  - destruct (f a) as [b|] eqn:E; cbn; [|discriminate].
    destruct (collect f l) as [bs|]; cbn; [|discriminate].
    intros [= <-]. constructor; auto.
Qed.

Lemma collect_map {A B} (f : A -> result B) (g : A -> B) l :
  Forall (fun x => f x = Ok (g x)) l -> collect f l = Ok (map g l).
Proof.
  induction 1 as [|a l Ha _ IH]; [reflexivity|]. cbn. by rewrite Ha, IH.
Qed.

Lemma to_netscape_string_serializable cookie_data :
  Forall (fun cookie => serializable cookie = true) cookie_data ->
  to_netscape_string cookie_data =
  Ok (unlines (map (fun cookie => tabbed (raw_columns cookie)) cookie_data)).
Proof.
  intros Hall. unfold to_netscape_string.
  rewrite (collect_map cookie_parts (fun cookie => map PStr (raw_columns cookie)));
    [|eapply Forall_impl; [exact Hall|]; apply cookie_parts_serializable].
  cbn [mbind result_bind].
  rewrite (collect_map _ (fun parts => tabbed (map text_of parts))).
  - cbn [mbind result_bind]. rewrite join_strs. unfold unlines. f_equal. f_equal.
    rewrite !map_map. apply map_ext. intros cookie. reflexivity.
  - apply Forall_map, Forall_forall. intros cookie _. cbn beta.
    rewrite join_strs. reflexivity.
Qed.

Lemma to_netscape_string_ok cookie_data text :
  to_netscape_string cookie_data = Ok text ->
  Forall (fun cookie => serializable cookie = true) cookie_data.
Proof.
  intros H. unfold to_netscape_string in H.
  destruct (collect cookie_parts cookie_data) as [result|] eqn:E1; cbn in H; [|discriminate].
  destruct (collect _ result) as [rows|] eqn:E2; cbn in H; [|discriminate].
  apply collect_ok in E1, E2. clear H. revert rows E2.
  induction E1 as [|cookie parts l result Hparts _ IH]; intros rows E2; [constructor|].
  inversion E2 as [|? row ? rows' Hrow Hrest]; subst.
  constructor; [by eapply row_ok_serializable | by eapply IH].
Qed.



Lemma parse_expiration_of_int n : parse_expiration (str_of_int n) = Ok (Z.max 0 n).
Proof.
  destruct (Z.lt_trichotomy 0 n) as [H|[<-|H]].
  - rewrite parse_expiration_str_of_int by assumption. f_equal. lia.
  - reflexivity.
  - destruct n as [|p|p]; try lia. unfold parse_expiration. cbn [str_of_int].
    assert (isdigit (45 :: uint_digits (Pos.to_uint p)) = false) as ->; [|reflexivity].
    unfold isdigit. cbn [forallb].
    assert (Unicode.is_digit 45 = false) as -> by (vm_compute; reflexivity). reflexivity.
Qed.

Lemma raw_columns_plain cookie :
  raw_round_trips cookie -> Forall plain (raw_columns cookie).
Proof.
  intros (_ & [b Hb] & (Hd & Hp & Hn & Hv) & _). unfold raw_columns. rewrite Hb.
  cbn [raw_record domain path name value] in *.
  assert (forall b : bool, plain (upper (py_str (PBool b)))) as Hflag
    by (intros []; split; decide_closed).
  repeat (constructor; [first [assumption | apply Hflag | apply plain_str_of_int]|]).
  constructor.
Qed.

Lemma parse_line_raw cookies cookie :
  raw_round_trips cookie ->
  parse_line cookies (tabbed (raw_columns cookie)) =
  Ok (<[name (raw_record cookie) := raw_record cookie]> cookies).
Proof.
  intros Hrt. pose proof (raw_columns_plain cookie Hrt) as Hplain.
  destruct Hrt as (_ & [b Hb] & _ & Hs & He). unfold raw_columns in *.
  cbn [raw_record domain value] in Hs, He.
  rewrite parse_line_seven by assumption.
  rewrite parse_expiration_of_int. cbn [mbind result_bind].
  assert (forall b : bool, str_eqb (upper (upper (py_str (PBool b)))) (U "TRUE") = b) as Hflag
    by (intros []; vm_compute; reflexivity).
  unfold raw_record. rewrite Hb, !Hflag. reflexivity.
Qed.

Lemma parse_raw_text cookie_data :
  Forall raw_round_trips cookie_data ->
  parse_from_string (unlines (map (fun cookie => tabbed (raw_columns cookie)) cookie_data))
  = Ok (store_all (map raw_record cookie_data)).
Proof.
  intros Hall.
  unfold parse_from_string. rewrite input_lines_unlines.
  - rewrite filter_all.
    + unfold store_all. generalize (∅ : gmap str Cookie).
      induction Hall as [|c l Hc _ IH]; intros m; [reflexivity|].
      cbn [map for_each foldl]. rewrite parse_line_raw by assumption. apply IH.
    + apply Forall_map. eapply Forall_impl; [exact Hall|]. intros c Hc. cbn beta.
      pose proof (raw_columns_plain c Hc) as Hplain. destruct Hc as (_ & _ & _ & Hs & He).
      by destruct (tabbed_seven _ _ _ _ _ _ _ Hplain Hs He) as (_ & ? & _).
  - apply Forall_map. eapply Forall_impl; [exact Hall|]. intros c Hc. cbn beta.
    pose proof (raw_columns_plain c Hc) as Hplain. destruct Hc as (_ & _ & _ & Hs & He).
    by destruct (tabbed_seven _ _ _ _ _ _ _ Hplain Hs He) as (? & _).
Qed.

Lemma raw_round_trips_serializable cookie_data :
  Forall raw_round_trips cookie_data ->
  Forall (fun cookie => serializable cookie = true) cookie_data.
Proof. intros Hall. eapply Forall_impl; [exact Hall|]. by intros c [? _]. Qed.



(** ** Session mappings *)

Lemma to_selenium_cookie_raw cookie :
  serializable (to_selenium_cookie cookie) = true /\
  raw_columns (to_selenium_cookie cookie) =
    [ domain cookie;
      if startswith (U ".") (domain cookie) then U "TRUE" else U "FALSE";
      path cookie;
      if secure cookie then U "TRUE" else U "FALSE";
      U "0";
      name cookie;
      value cookie ] /\
  raw_record (to_selenium_cookie cookie) = through_session cookie.
Proof.
  assert (get (to_selenium_cookie cookie) (U "domain") (PStr []) = PStr (domain cookie)) as Hd
    by reflexivity.
  assert (get (to_selenium_cookie cookie) (U "path") (PStr []) = PStr (path cookie)) as Hp
    by reflexivity.
  assert (get (to_selenium_cookie cookie) (U "name") (PStr []) = PStr (name cookie)) as Hn
    by reflexivity.
  assert (get (to_selenium_cookie cookie) (U "value") (PStr []) = PStr (value cookie)) as Hv
    by reflexivity.
  assert (get (to_selenium_cookie cookie) (U "secure") (PBool false) = PBool (secure cookie))
    as Hs by reflexivity.
  assert (get (to_selenium_cookie cookie) (U "expiry") PNone = PNone) as He by reflexivity.
  unfold serializable, raw_columns, raw_record, through_session.
  rewrite Hd, Hp, Hn, Hv, Hs, He. cbn [is_text text_of andb].
  split; [reflexivity|]. split; [|reflexivity].
  destruct (startswith (U ".") (domain cookie)), (secure cookie); reflexivity.
Qed.

(** X15: the header-less serializer never raises on the session
    mappings of Cookie Records; it writes, for each record, its domain,
    [TRUE] or [FALSE] by whether the domain starts with a dot (not by the
    record's own flag), its path, its secure flag, an expiry of 0 (the
    expiration is not carried over), its name and its value. *)
Theorem selenium_then_serialize (cookies : list Cookie) :
  to_netscape_string (map to_selenium_cookie cookies) =
  Ok (unlines (map (fun cookie =>
        tabbed [ domain cookie;
                 if startswith (U ".") (domain cookie) then U "TRUE" else U "FALSE";
                 path cookie;
                 if secure cookie then U "TRUE" else U "FALSE";
                 U "0";
                 name cookie;
                 value cookie ]) cookies)).
Proof.
  rewrite to_netscape_string_serializable.
  - rewrite map_map. f_equal. f_equal. apply map_ext. intros cookie.
    by destruct (to_selenium_cookie_raw cookie) as (_ & -> & _).
  - apply Forall_map, Forall_forall. intros cookie _.
    by destruct (to_selenium_cookie_raw cookie) as (? & _).
Qed.

(** X16: records whose lines survive trimming, turned into session
    mappings, serialized and parsed, come back with the expiration 0 and
    the subdomain flag recomputed from the domain, and otherwise
    unchanged. *)
Theorem selenium_round_trip (cookies : list Cookie) :
  Forall survives cookies ->
  exists text,
    to_netscape_string (map to_selenium_cookie cookies) = Ok text /\
    parse_from_string text = Ok (store_all (map through_session cookies)).
Proof.
  intros Hall.
  assert (Forall raw_round_trips (map to_selenium_cookie cookies)) as Hraw.
  { apply Forall_map. eapply Forall_impl; [exact Hall|].
    intros cookie (Hplain & Hs & He). cbn beta.
    destruct (to_selenium_cookie_raw cookie) as (Hser & _ & Hrec).
    unfold raw_round_trips. rewrite Hrec.
    split; [assumption|]. split; [by exists (secure cookie)|].
    split; [exact Hplain|]. split; [exact Hs | exact He]. }
  eexists. split.
  - by apply to_netscape_string_serializable, raw_round_trips_serializable.
  - rewrite parse_raw_text by assumption. rewrite map_map. reflexivity.
Qed.

Lemma selenium_round_trip_witness :
  exists text,
    to_netscape_string
      [ to_selenium_cookie
          (mkCookie (U "x.com") true (U "/") true (Some 1700000000%Z) (U "a") (U "1")) ]
    = Ok text /\
    parse_from_string text =
    Ok (store_all [ mkCookie (U "x.com") false (U "/") true (Some 0%Z) (U "a") (U "1") ]).
Proof.
  apply (selenium_round_trip
    [ mkCookie (U "x.com") true (U "/") true (Some 1700000000%Z) (U "a") (U "1") ]).
  repeat constructor; try decide_closed.
  - exists 120, (U ".com"). repeat split; discriminate.
  - exists [], 49. repeat split.
Defined.

(** ** Saving raw mappings, and the session *)





(** X18: when some mapping is not one the serializer accepts,
    [save_cookies_to_file] raises and leaves every file as it was, the
    file of the given path included. *)
Theorem save_cookies_to_file_raises (cookie_data : list (gmap str pyval))
    (file_path : str) (files : gmap str str) :
  Exists (fun cookie => serializable cookie = false) cookie_data ->
  exists e, save_cookies_to_file cookie_data file_path files = (files, Raise e).
Proof.
  intros Hex. unfold save_cookies_to_file.
  destruct (to_netscape_string cookie_data) as [text|e] eqn:E; [|eauto].
  pose proof (to_netscape_string_ok _ _ E) as Hall.
  apply Exists_exists in Hex as (c & Hin & Hc).
  rewrite Forall_forall in Hall. rewrite (Hall c Hin) in Hc. discriminate.
Qed.

Lemma save_cookies_to_file_raises_witness :
  exists e,
    save_cookies_to_file
      [ dict [ (U "domain", PStr (U "x.com")); (U "name", PNone) ] ]
      (U "jar") {[ U "jar" := U "kept" ]}
    = ({[ U "jar" := U "kept" ]}, Raise e).
Proof.
  apply save_cookies_to_file_raises. decide_closed.
Defined.



(** X20: with no path, with the empty path, or when the serialization
    of the session's cookies raises, [netscape_from_driver] asks the
    session once, touches no file and gives the outcome of the
    serialization. *)
Theorem driver_without_file `{WebDriver D} (driver driver1 : D)
    (cookies : list (gmap str pyval)) (file_path : option str) (files : gmap str str) :
  get_cookies driver = (cookies, driver1) ->
  file_path = None \/ file_path = Some [] \/
    (exists e, to_netscape_string cookies = Raise e) ->
  netscape_from_driver driver file_path files =
  (driver1, files, to_netscape_string cookies).
Proof.
  intros H1 Hcases. unfold netscape_from_driver. rewrite H1.
  destruct Hcases as [->|[->|[e ->]]]; try reflexivity;
    by destruct (to_netscape_string cookies).
Qed.

Lemma driver_without_file_witness :
  netscape_from_driver
    [ [ dict [ (U "domain", PStr (U "x.com")); (U "name", PStr (U "a")) ] ]; [] ]
    (Some []) {[ U "jar" := U "kept" ]}
  = ([ [] ], {[ U "jar" := U "kept" ]},
     to_netscape_string [ dict [ (U "domain", PStr (U "x.com")); (U "name", PStr (U "a")) ] ]).
Proof.
  apply driver_without_file; [reflexivity|]. right. by left.
Defined.

(** The text returned and the text saved differ when the session
    changes between the two calls. *)
Example driver_two_answers :
  netscape_from_driver
    [ [ dict [ (U "domain", PStr (U "x.com")); (U "name", PStr (U "a")) ] ]; [] ]
    (Some (U "jar")) ∅
  = ([], {[ U "jar" := [] ]},
     Ok (tabbed [U "x.com"; U "FALSE"; []; U "FALSE"; U "0"; U "a"; []])).
Proof. vm_compute. reflexivity. Qed.
